(** * Time-entry form: dirty tracking, timer, save / revert, derived view

    A shallow embedding of the root container [App] (the state it owns, its
    handlers and its derived view) and of the start-up code that reads the
    persisted change-set, followed by the properties of the specification
    that are stated about them.

    Conventions of the embedding:
    - a JS object used as a map from entry id to a record is a [gmap];
    - an optional property of a record is an [option]; [None] is "the
      property is absent";
    - the only place where the program stores an explicit [undefined] under
      a property is the card's date picker ([onChange({date: d || undefined})]),
      so the [date] slot of a partial record has three states: absent,
      present and [undefined], present with a moment;
    - a [number] that holds a time is a [Z]: the times of the program are
      integer-valued doubles (the seeds are [0], the only arithmetic is
      [+ 1]), and [+] is the correctly rounded sum [JS.add];
    - a handler runs against the state of the last render and replaces whole
      state variables; no handler reads a variable after writing it, so the
      handlers are functions from state to state;
    - an expression that throws [TypeError] evaluates to [None]. *)

From stdpp Require Import gmap strings list fin_maps.
From Stdlib Require Import ZArith.

(** ** The fragments of JavaScript semantics the program relies on *)

Module JS.

(** Truthiness of a string: only the empty string is falsy. *)
Definition truthy_string (s : string) : bool := negb (String.eqb s "").

(** [a || b] where both operands are [number | undefined]: the left
    operand is returned when it is truthy, that is defined and not [0]. *)
Definition or_num (a b : option Z) : option Z :=
  match a with
  | Some n => if (n =? 0)%Z then b else Some n
  | None => b
  end.

(** [a || d] where [d] is a number literal. *)
Definition or_lit (a : option Z) (d : Z) : Z :=
  match a with
  | Some n => if (n =? 0)%Z then d else n
  | None => d
  end.

(** Whether an object has an own property. *)
Definition own {A : Type} (slot : option A) : bool :=
  match slot with
  | Some _ => true
  | None => false
  end.

(** One property of [{...earlier, ...later}]: an own property of the
    later object overwrites the earlier one. *)
Definition spread {A : Type} (earlier later : option A) : option A :=
  match later with
  | Some v => Some v
  | None => earlier
  end.

(** One property of [{...whole, ...later}] when the earlier object
    always has the property. *)
Definition spread_onto {A : Type} (whole : A) (later : option A) : A :=
  match later with
  | Some v => v
  | None => whole
  end.

(** [Array.prototype.filter] with a predicate that may throw: the
    predicate is called on every element in order, and an exception
    aborts the whole call. *)
Fixpoint filter_throwing {A : Type} (p : A → option bool) (l : list A)
  : option (list A) :=
  match l with
  | [] => Some []
  | x :: rest =>
      match p x with
      | None => None
      | Some b =>
          match filter_throwing p rest with
          | None => None
          | Some kept => Some (if b then x :: kept else kept)
          end
      end
  end.

(** [2^53]: up to this magnitude every integer is a double. *)
Definition two53 : Z := 9007199254740992.

(** The double nearest to an integer, ties to the even significand (the
    rounding of IEEE 754 binary64).  Above [2^53] a double has 53
    significant bits: the [e] low bits are dropped and the rest is rounded.
    Overflow to [Infinity] is left out: no sum of a finite double and [1]
    overflows. *)
Definition to_double (z : Z) : Z :=
  let m := Z.abs z in
  if (m <=? two53)%Z then z
  else
    let e := (Z.log2 m - 52)%Z in
    let q := (m / 2 ^ e)%Z in
    let r := (m mod 2 ^ e)%Z in
    let half := (2 ^ (e - 1))%Z in
    let q' :=
      if (r <? half)%Z then q
      else if (half <? r)%Z then (q + 1)%Z
      else if Z.even q then q else (q + 1)%Z in
    (Z.sgn z * (q' * 2 ^ e))%Z.

(** [a + b] on two integer-valued doubles: the exact sum, rounded. *)
Definition add (a b : Z) : Z := to_double (a + b).

End JS.

(** ** Data model *)

Definition EntryId := string.

(** A moment of the date library; the program only observes
    [dayOfYear()]. *)
Record Moment := mkMoment { year : Z; dayOfYear : Z }.

(** [TimeEntry] as it exists at run time: the declared type of [date] is
    [Moment], but merging a cleared date stores [undefined] there. *)
Record TimeEntry := mkTimeEntry {
  te_id : EntryId;
  te_notes : string;
  te_time : Z;
  te_date : option Moment;
}.

(** [Partial<TimeEntry>]. *)
Record PartialTimeEntry := mkPartial {
  p_id : option EntryId;
  p_notes : option string;
  p_time : option Z;
  p_date : option (option Moment);
}.

#[global] Instance Moment_eq_dec : EqDecision Moment.
Proof. solve_decision. Defined.

#[global] Instance TimeEntry_eq_dec : EqDecision TimeEntry.
Proof. solve_decision. Defined.

#[global] Instance PartialTimeEntry_eq_dec : EqDecision PartialTimeEntry.
Proof. solve_decision. Defined.

(** [ChangedEntries = Record<EntryId, Partial<TimeEntry>>]. *)
Abbreviation ChangedEntries := (gmap EntryId PartialTimeEntry).

(** The object literal [{}]. *)
Definition no_fields : PartialTimeEntry := mkPartial None None None None.

(** [{time: t}], the update of the timer callback. *)
Definition time_update (t : Z) : PartialTimeEntry :=
  mkPartial None None (Some t) None.

(** [{notes: s}], the update of the notes input. *)
Definition notes_update (s : string) : PartialTimeEntry :=
  mkPartial None (Some s) None None.

(** [{date: d || undefined}], the update of the card's date picker: a
    cleared picker ([d = null]) gives a record whose [date] property is
    present and [undefined]. *)
Definition date_update (d : option Moment) : PartialTimeEntry :=
  mkPartial None None None (Some d).

(** [Object.keys(p).length > 0]. *)
Definition has_field (p : PartialTimeEntry) : bool :=
  JS.own (p_id p) || JS.own (p_notes p) || JS.own (p_time p)
  || JS.own (p_date p).

(** [{...cur, ...upd}] on two partial records. *)
Definition merge_partial (cur upd : PartialTimeEntry) : PartialTimeEntry :=
  {| p_id := JS.spread (p_id cur) (p_id upd);
     p_notes := JS.spread (p_notes cur) (p_notes upd);
     p_time := JS.spread (p_time cur) (p_time upd);
     p_date := JS.spread (p_date cur) (p_date upd) |}.

(** [{...te, ...p}]: a partial record laid over a whole entry. *)
Definition merge_entry (te : TimeEntry) (p : PartialTimeEntry) : TimeEntry :=
  {| te_id := JS.spread_onto (te_id te) (p_id p);
     te_notes := JS.spread_onto (te_notes te) (p_notes p);
     te_time := JS.spread_onto (te_time te) (p_time p);
     te_date := JS.spread_onto (te_date te) (p_date p) |}.

(** [EXISTING_TE]; [t1] and [t2] are the values of the two calls of
    [moment()] made when the module loads. *)
Definition EXISTING_TE (t1 t2 : Moment) : list TimeEntry :=
  [ mkTimeEntry "1" "GST: hello world" 0 (Some t1);
    mkTimeEntry "2" "GST: another item" 0 (Some t2) ].

(** ** Start-up: index.tsx *)

Inductive PropValue :=
| PChanges (c : ChangedEntries)
| PCallback.

(** The props object a JSX element passes to its component. *)
Abbreviation Props := (gmap string PropValue).

Definition LOCAL_KEY_CHANGES : string := "changes".

Section Startup.

(** [JSON.parse]: [None] when it throws.  The result is read at the type
    the program gives it without validating it. *)
Variable JSON_parse : string → option ChangedEntries.

(** [localData] after the [try]/[catch]; the argument is the content of
    [window.localStorage]. *)
Definition localData (localStorage : gmap string string) : ChangedEntries :=
  match localStorage !! LOCAL_KEY_CHANGES with
  | Some raw =>
      if JS.truthy_string raw then
        match JSON_parse raw with
        | Some parsed => parsed
        | None => ∅
        end
      else ∅
  | None => ∅
  end.

(** [<App initChanges={localData} onSaveChanges={updateLocalStorage} />]. *)
Definition index_props (localStorage : gmap string string) : Props :=
  <["initChanges" := PChanges (localData localStorage)]>
    (<["onSaveChanges" := PCallback]> ∅).

End Startup.

(** ** The root container: App *)

Record State := mkState {
  timeEntries : list TimeEntry;
  changes : ChangedEntries;
  currentDate : option Moment;
  activeTimeEntry : option EntryId;
}.

(** [const { savedChanges, onSaveChanges } = props]: the value bound to
    [savedChanges]; [None] is [undefined]. *)
Definition savedChanges (props : Props) : option ChangedEntries :=
  match props !! "savedChanges" with
  | Some (PChanges c) => Some c
  | _ => None
  end.

(** The four [useState] initial values, for a change-set of the declared
    type; [mounted] is the value of [moment()] at the first render. *)
Definition initial_state (t1 t2 mounted : Moment) (saved : ChangedEntries)
  : State :=
  {| timeEntries := EXISTING_TE t1 t2;
     changes := saved;
     currentDate := Some mounted;
     activeTimeEntry := None |}.

(** The state after mounting [App]; [None] when [changes] is initialised
    to [undefined], which is not a change-set. *)
Definition App_mount (t1 t2 mounted : Moment) (props : Props)
  : option State :=
  initial_state t1 t2 mounted <$> savedChanges props.

Definition setTimeEntries (l : list TimeEntry) (st : State) : State :=
  {| timeEntries := l; changes := changes st;
     currentDate := currentDate st; activeTimeEntry := activeTimeEntry st |}.

Definition setChanges (c : ChangedEntries) (st : State) : State :=
  {| timeEntries := timeEntries st; changes := c;
     currentDate := currentDate st; activeTimeEntry := activeTimeEntry st |}.

Definition setCurrentDate (d : option Moment) (st : State) : State :=
  {| timeEntries := timeEntries st; changes := changes st;
     currentDate := d; activeTimeEntry := activeTimeEntry st |}.

Definition setActiveTimeEntry (a : option EntryId) (st : State) : State :=
  {| timeEntries := timeEntries st; changes := changes st;
     currentDate := currentDate st; activeTimeEntry := a |}.

(** [timeEntries.find(te => te.id === id)]. *)
Definition find_entry (id : EntryId) (l : list TimeEntry) : option TimeEntry :=
  List.find (λ te, bool_decide (te_id te = id)) l.

Definition change (id : EntryId) (updates : PartialTimeEntry) (st : State)
  : State :=
  let currentChanges := default no_fields (changes st !! id) in
  let newItem := merge_partial currentChanges updates in
  let newState := <[id := newItem]> (changes st) in
  setChanges newState st.

(** [changes[activeTimeEntry]?.time || timeEntries.find(...)?.time || 0]. *)
Definition currentTime (id : EntryId) (st : State) : Z :=
  JS.or_lit
    (JS.or_num (changes st !! id ≫= p_time)
               (te_time <$> find_entry id (timeEntries st)))
    0.

(** The callback given to [useInterval], run once per second. *)
Definition tick (st : State) : State :=
  match activeTimeEntry st with
  | Some active =>
      if JS.truthy_string active then
        change active (time_update (JS.add (currentTime active st) 1)) st
      else st
  | None => st
  end.

Definition start (id : EntryId) (st : State) : State :=
  setActiveTimeEntry (Some id) st.

Definition pause (st : State) : State :=
  setActiveTimeEntry None st.

Definition clearChanges (id : EntryId) (st : State) : State :=
  let newChanges := delete id (changes st) in
  setChanges newChanges st.

Definition revert (id : EntryId) (st : State) : State :=
  let st' :=
    if bool_decide (activeTimeEntry st = Some id) then pause st else st in
  clearChanges id st'.

Definition save (id : EntryId) (st : State) : State :=
  let existingItem := find_entry id (timeEntries st) in
  match changes st !! id, existingItem with
  | Some itemChanges, Some existing =>
      let updatedItem := merge_entry existing itemChanges in
      clearChanges id
        (setTimeEntries
           (map (λ te, if bool_decide (te_id te = id) then updatedItem else te)
                (timeEntries st))
           st)
  | _, _ => st
  end.

(** The [map] callback of the derived state. *)
Definition withChanges (c : ChangedEntries) (te : TimeEntry) : TimeEntry :=
  match c !! te_id te with
  | Some p => merge_entry te p
  | None => te
  end.

(** The [filter] callback of the derived state,
    [te.date.dayOfYear() === currentDate?.dayOfYear()]: reading
    [dayOfYear] of an [undefined] date throws; a [null] selected date
    makes the right operand [undefined], equal to no number. *)
Definition onSelectedDay (selected : option Moment) (te : TimeEntry)
  : option bool :=
  match te_date te with
  | None => None
  | Some d =>
      Some (match selected with
            | Some s => bool_decide (dayOfYear d = dayOfYear s)
            | None => false
            end)
  end.

(** [timeEntriesWithChanges], computed on every render. *)
Definition timeEntriesWithChanges (st : State) : option (list TimeEntry) :=
  JS.filter_throwing (onSelectedDay (currentDate st))
    (map (withChanges (changes st)) (timeEntries st)).

(** [dirtyItems = Object.keys(changes)], as a set. *)
Definition dirtyItems (st : State) : gset EntryId := dom (changes st).

(** ** Events of the root container *)

(** What the container can be asked to do: the callbacks it hands to the
    list and the cards, the date selector, the timer callback, and
    [clearChanges], which only [save] and [revert] call. *)
Inductive Action :=
| AChange (id : EntryId) (updates : PartialTimeEntry)
| AClearChanges (id : EntryId)
| AStart (id : EntryId)
| APause
| ATick
| ARevert (id : EntryId)
| ASave (id : EntryId)
| ASetCurrentDate (d : option Moment).

Definition handle (st : State) (a : Action) : State :=
  match a with
  | AChange id updates => change id updates st
  | AClearChanges id => clearChanges id st
  | AStart id => start id st
  | APause => pause st
  | ATick => tick st
  | ARevert id => revert id st
  | ASave id => save id st
  | ASetCurrentDate d => setCurrentDate d st
  end.

(** The state after a sequence of events, oldest first. *)
Definition run (trace : list Action) (st : State) : State :=
  foldl handle st trace.


(** ** Notions of the specification *)

(** The fields of a partial record, one at a time: a view of
    [Partial<TimeEntry>] as the JS object it is, a finite set of own
    properties, each with a value. *)
Inductive Field := FId | FNotes | FTime | FDate.

Inductive FieldValue :=
| VId (s : EntryId)
| VNotes (s : string)
| VTime (t : Z)
| VDate (d : option Moment).

(** [p[f]], together with whether [f] is an own property of [p]. *)
Definition field (f : Field) (p : PartialTimeEntry) : option FieldValue :=
  match f with
  | FId => VId <$> p_id p
  | FNotes => VNotes <$> p_notes p
  | FTime => VTime <$> p_time p
  | FDate => VDate <$> p_date p
  end.

(** The dirty-tracking invariant of the change-set: no id is mapped to a
    record without fields. *)
Definition dirty_invariant (c : ChangedEntries) : Prop :=
  map_Forall (λ _ p, has_field p = true) c.

#[global] Instance dirty_invariant_dec c : Decision (dirty_invariant c).
Proof. unfold dirty_invariant. apply _. Defined.

(** The effective time of an entry in the words of the specification:
    the pending override when there is one, else the canonical value, else
    [0]. *)
Definition effective_time (id : EntryId) (st : State) : Z :=
  match changes st !! id ≫= p_time with
  | Some t => t
  | None =>
      match find_entry id (timeEntries st) with
      | Some te => te_time te
      | None => 0%Z
      end
  end.

(** The filter of the derived view in the words of the specification: the
    entry's date and the selected date have the same day of the year. *)
Definition same_day_of_year (selected : option Moment) (te : TimeEntry)
  : bool :=
  match te_date te, selected with
  | Some d, Some s => bool_decide (dayOfYear d = dayOfYear s)
  | _, _ => false
  end.

(** Every merged entry has a date. *)
Definition dates_present (st : State) : Prop :=
  Forall (λ te, is_Some (te_date (withChanges (changes st) te)))
         (timeEntries st).

#[global] Instance dates_present_dec st : Decision (dates_present st).
Proof. unfold dates_present. apply _. Defined.

(** ** Sample states used by the closed examples *)

Definition feb_1 : Moment := mkMoment 2021 32.
Definition feb_2 : Moment := mkMoment 2021 33.

(** The seeded container, mounted on February 1st with an empty
    change-set. *)
Definition fresh : State := initial_state feb_1 feb_1 feb_1 ∅.





(** The session in which the user clears the date picker of card 1. *)
Definition date_cleared : State :=
  run [AChange "1" (date_update None)] fresh.

(** ** Presentation: the card, the list and the container's render

    A rendered element is the record of what it shows and of the handlers
    it carries; a handler is the event of the container it ends up
    calling. *)

(** [cond && <El/>] among JSX children: nothing is rendered for
    [false]. *)
Definition shown_if {A : Type} (cond : bool) (el : A) : list A :=
  if cond then [el] else [].

(** A rendered [<Button onClick={...}>label</Button>]; [None] is a handler
    that touches no state ([console.log]). *)
Record ButtonEl := mkButton { label : string; onClick : option Action }.

(** The card component, [function TimeEntry(props)]. *)
Module Card.

Record Props := mkProps {
  key : string;
  timeEntry : TimeEntry;
  isActive : bool;
  isDirty : bool;
  onPause : Action;
  onStart : Action;
  onChange : PartialTimeEntry → Action;
  onSave : Action;
  onRevert : Action;
}.

Record Element := mkElement {
  title : string;
  actions : list ButtonEl;
  elapsed : Z;
  notes_value : string;
  notes_onChange : string → Action;
  date_value : option Moment;
  date_onChange : option Moment → Action;
}.

Definition render (props : Props) : Element :=
  let te := timeEntry props in
  {| title :=
       "Entry Id: " +:+ te_id te +:+ (if isDirty props then "*" else "");
     actions :=
       shown_if (negb (isActive props)) (mkButton "Start" (Some (onStart props)))
       ++ shown_if (isActive props) (mkButton "Pause" (Some (onPause props)))
       ++ shown_if (isDirty props) (mkButton "Revert" (Some (onRevert props)))
       ++ shown_if (isDirty props) (mkButton "Save" (Some (onSave props)));
     elapsed := te_time te;
     notes_value := te_notes te;
     notes_onChange := λ value, onChange props (notes_update value);
     date_value := te_date te;
     date_onChange := λ d, onChange props (date_update d) |}.

End Card.

(** The list component, [function TimeEntryList(props)]. *)
Module TimeEntryList.

Record Props := mkProps {
  timeEntries : list TimeEntry;
  activeTimeEntry : option EntryId;
  dirtyItems : list EntryId;
  onPause : Action;
  onStart : EntryId → Action;
  onChange : EntryId → PartialTimeEntry → Action;
  onSave : EntryId → Action;
  onRevert : EntryId → Action;
}.

Definition render (props : Props) : list Card.Element :=
  map (λ te,
         Card.render
           {| Card.key := te_id te;
              Card.timeEntry := te;
              Card.isActive :=
                bool_decide (activeTimeEntry props = Some (te_id te));
              Card.isDirty := bool_decide (te_id te ∈ dirtyItems props);
              Card.onStart := onStart props (te_id te);
              Card.onChange := onChange props (te_id te);
              Card.onPause := onPause props;
              Card.onRevert := onRevert props (te_id te);
              Card.onSave := onSave props (te_id te) |})
      (timeEntries props).

End TimeEntryList.

(** What [App] returns: the "New" button, the date selector and the
    list. *)
Record AppElement := mkAppElement {
  add : ButtonEl;
  selected_value : option Moment;
  selected_onChange : option Moment → Action;
  cards : list Card.Element;
}.

(** One render of [App]; [None] when computing the derived state
    throws. *)
Definition App_render (st : State) : option AppElement :=
  match timeEntriesWithChanges st with
  | None => None
  | Some visible =>
      Some {| add := mkButton "New" None;
              selected_value := currentDate st;
              selected_onChange := ASetCurrentDate;
              cards :=
                TimeEntryList.render
                  {| TimeEntryList.timeEntries := visible;
                     TimeEntryList.activeTimeEntry := activeTimeEntry st;
                     TimeEntryList.dirtyItems := elements (dirtyItems st);
                     TimeEntryList.onStart := AStart;
                     TimeEntryList.onPause := APause;
                     TimeEntryList.onChange := AChange;
                     TimeEntryList.onSave := ASave;
                     TimeEntryList.onRevert := ARevert |} |}
  end.

(** ** User sessions *)

(** What can happen to a mounted container: the user acts on a control of
    the last render, or the one-second interval elapses. *)
Inductive UIEvent :=
| Click (card : nat) (button : string)
| TypeNotes (card : nat) (value : string)
| PickDate (card : nat) (d : option Moment)
| SelectDate (d : option Moment)
| ClickNew
| Interval.

(** The event of the container a user event triggers on a render; [None]
    when the control is not on the page or its handler touches no
    state. *)
Definition fire (view : AppElement) (ev : UIEvent) : option Action :=
  match ev with
  | Click card button =>
      el ← cards view !! card;
      b ← List.find (λ b, String.eqb (label b) button) (Card.actions el);
      onClick b
  | TypeNotes card value =>
      el ← cards view !! card; Some (Card.notes_onChange el value)
  | PickDate card d =>
      el ← cards view !! card; Some (Card.date_onChange el d)
  | SelectDate d => Some (selected_onChange view d)
  | ClickNew => onClick (add view)
  | Interval => Some ATick
  end.

(** One user event on a mounted container.  A render that throws unmounts
    the container: [None], and nothing can happen to it any more. *)
Definition ui_step (st : State) (ev : UIEvent) : option State :=
  match App_render st with
  | None => None
  | Some view =>
      Some match fire view ev with
           | Some a => handle st a
           | None => st
           end
  end.

(** A session: user events, oldest first. *)
Fixpoint ui_run (events : list UIEvent) (st : State) : option State :=
  match events with
  | [] => Some st
  | ev :: rest =>
      match ui_step st ev with
      | None => None
      | Some st' => ui_run rest st'
      end
  end.

(** ** Persisting the change-set: index.tsx *)

Section Persist.

(** [JSON.stringify] on a change-set. *)
Variable JSON_stringify : ChangedEntries → string.

(** The function wrapped by [debounce], when it runs. *)
Definition updateLocalStorage (c : ChangedEntries)
    (localStorage : gmap string string) : gmap string string :=
  <["changes" := JSON_stringify c]> localStorage.

End Persist.

(** ** States a user session can be in *)

(** The ids of the canonical entries, in order. *)
Definition entry_ids (st : State) : list EntryId :=
  te_id <$> timeEntries st.

(** A pending record as the controls and the timer build them: it has a
    field, it does not override the id, and a pending time is at least one
    second. *)
Definition sound_record (p : PartialTimeEntry) : Prop :=
  has_field p = true ∧ p_id p = None
  ∧ from_option (λ t, (1 ≤ t)%Z) True (p_time p).

#[global] Instance sound_record_dec p : Decision (sound_record p).
Proof. unfold sound_record. destruct (p_time p); simpl; apply _. Defined.

(** Ids are unique and not empty, canonical times are not negative, every
    pending record is sound and belongs to a canonical entry, and so does
    the active timer. *)
Definition well_formed (st : State) : Prop :=
  NoDup (entry_ids st)
  ∧ Forall (λ te, te_id te ≠ "" ∧ (0 ≤ te_time te)%Z) (timeEntries st)
  ∧ map_Forall (λ id p, sound_record p ∧ id ∈ entry_ids st) (changes st)
  ∧ from_option (λ a, a ∈ entry_ids st) True (activeTimeEntry st).

#[global] Instance well_formed_dec st : Decision (well_formed st).
Proof.
  unfold well_formed. destruct (activeTimeEntry st); simpl; apply _.
Defined.

(** Every canonical entry has a date and no pending record clears one. *)
Definition dated (st : State) : Prop :=
  Forall (λ te, is_Some (te_date te)) (timeEntries st)
  ∧ map_Forall (λ _ p, p_date p ≠ Some None) (changes st).

#[global] Instance dated_dec st : Decision (dated st).
Proof. unfold dated. apply _. Defined.

(** An event of the container as the controls of a render trigger them: a
    change or a start targets a canonical entry, and a change supplies
    notes or a date. *)
Definition user_action (st : State) (a : Action) : Prop :=
  match a with
  | AChange id updates =>
      id ∈ entry_ids st
      ∧ ((∃ value, updates = notes_update value)
         ∨ (∃ d, updates = date_update d))
  | AStart id => id ∈ entry_ids st
  | _ => True
  end.

(** The card the container shows for a visible entry: what the list makes
    of the props [App] passes to it. *)
Definition card_of (st : State) (te : TimeEntry) : Card.Element :=
  Card.render
    {| Card.key := te_id te;
       Card.timeEntry := te;
       Card.isActive := bool_decide (activeTimeEntry st = Some (te_id te));
       Card.isDirty := bool_decide (te_id te ∈ elements (dirtyItems st));
       Card.onStart := AStart (te_id te);
       Card.onChange := AChange (te_id te);
       Card.onPause := APause;
       Card.onRevert := ARevert (te_id te);
       Card.onSave := ASave (te_id te) |}.

(** The labels of the buttons of a card. *)
Definition buttons (el : Card.Element) : list string :=
  label <$> Card.actions el.

(** An event of the container that stores no cleared date. *)
Definition keeps_dates (a : Action) : Prop :=
  match a with
  | AChange _ updates => p_date updates ≠ Some None
  | _ => True
  end.

(** No pending record overrides the id of its entry. *)
Definition no_id_override (c : ChangedEntries) : Prop :=
  map_Forall (λ _ p, p_id p = None) c.

#[global] Instance no_id_override_dec c : Decision (no_id_override c).
Proof. unfold no_id_override. apply _. Defined.

(** Whether an event of the container records no id. *)
Definition keeps_id (a : Action) : bool :=
  match a with
  | AChange _ updates => negb (JS.own (p_id updates))
  | _ => true
  end.

(** Whether an event of the container is a save. *)
Definition is_save (a : Action) : bool :=
  match a with
  | ASave _ => true
  | _ => false
  end.

(** The interval elapsing [n] times in a row. *)
Definition ticks (n : nat) : list Action := replicate n ATick.

(** Successive changes recorded for one entry, oldest first. *)
Definition edits (id : EntryId) (updates : list PartialTimeEntry)
  : list Action :=
  AChange id <$> updates.

(** The user clears the date picker of a card. *)
Definition clears_entry_date (ev : UIEvent) : bool :=
  match ev with
  | PickDate _ None => true
  | _ => false
  end.

(** ** Elementary facts *)

Lemma State_eta (st : State) :
  mkState (timeEntries st) (changes st) (currentDate st) (activeTimeEntry st)
  = st.
Proof. by destruct st. Qed.

Lemma truthy_string_nonempty (s : string) :
  JS.truthy_string s = true ↔ s ≠ "".
Proof.
  unfold JS.truthy_string. rewrite negb_true_iff.
  destruct (String.eqb_spec s ""); split; congruence.
Qed.

Lemma field_merge_partial (f : Field) (cur upd : PartialTimeEntry) :
  field f (merge_partial cur upd) = JS.spread (field f cur) (field f upd).
Proof.
  destruct cur as [i n t d], upd as [i' n' t' d'].
  destruct f; simpl;
    [ by destruct i' | by destruct n' | by destruct t' | by destruct d' ].
Qed.

Lemma merge_partial_no_fields (upd : PartialTimeEntry) :
  merge_partial no_fields upd = upd.
Proof. destruct upd as [[] [] [] []]; reflexivity. Qed.


Lemma has_field_merge_partial (cur upd : PartialTimeEntry) :
  has_field (merge_partial cur upd) = has_field cur || has_field upd.
Proof.
  destruct cur as [[] [] [] []], upd as [[] [] [] []]; reflexivity.
Qed.

Lemma find_entry_Some (id : EntryId) (l : list TimeEntry) (te : TimeEntry) :
  find_entry id l = Some te → te ∈ l ∧ te_id te = id.
Proof.
  unfold find_entry. intros H. apply find_some in H as [Hin Hid].
  split; [by apply list_elem_of_In|]. by apply bool_decide_eq_true in Hid.
Qed.

Lemma find_entry_None (id : EntryId) (l : list TimeEntry) :
  find_entry id l = None ↔ ∀ te, te ∈ l → te_id te ≠ id.
Proof.
  unfold find_entry. split.
  - intros H te Hin Hid. apply list_elem_of_In in Hin.
    pose proof (find_none _ _ H te Hin) as Hf. simpl in Hf.
    by rewrite bool_decide_eq_true_2 in Hf.
  - intros H. destruct (List.find _ l) as [te|] eqn:E; [|done].
    apply find_some in E as [Hin Hid]. apply bool_decide_eq_true in Hid.
    apply list_elem_of_In in Hin. by destruct (H te Hin).
Qed.

Lemma changes_change (id other : EntryId) (updates : PartialTimeEntry)
    (st : State) :
  changes (change id updates st) !! other =
    if decide (id = other)
    then Some (merge_partial (default no_fields (changes st !! id)) updates)
    else changes st !! other.
Proof. unfold change. simpl. apply lookup_insert. Qed.

Lemma changes_clearChanges (id other : EntryId) (st : State) :
  changes (clearChanges id st) !! other =
    if decide (id = other) then None else changes st !! other.
Proof. unfold clearChanges. simpl. apply lookup_delete. Qed.

(** ** Change tracker *)

Section ChangeTracker.

Implicit Types (id other : EntryId) (st : State).
Implicit Types (updates later : PartialTimeEntry).

Lemma change_stored id updates st :
  changes (change id updates st) !! id =
    Some (merge_partial (default no_fields (changes st !! id)) updates).
Proof. rewrite changes_change. by rewrite decide_True. Qed.

Lemma change_other id other updates st :
  other ≠ id →
  changes (change id updates st) !! other = changes st !! other.
Proof. intros H. rewrite changes_change. by rewrite decide_False. Qed.

Lemma clearChanges_absent id st :
  changes st !! id = None → clearChanges id st = st.
Proof.
  intros H. unfold clearChanges, setChanges.
  rewrite delete_id by done. apply State_eta.
Qed.

Lemma clearChanges_twice id st :
  clearChanges id (clearChanges id st) = clearChanges id st.
Proof.
  apply clearChanges_absent. rewrite changes_clearChanges.
  by rewrite decide_True.
Qed.

End ChangeTracker.

(** C7.  [change id updates] stores for [id] a record whose every field is
    the one supplied by [updates] when [updates] has that field, and the
    one of the record previously stored for [id] otherwise (no field when
    [id] had no record); so a record is created with exactly the supplied
    fields when [id] was not dirty, records of other ids and the rest of
    the state are untouched, and after a second change whose fields are
    disjoint from the first one's, the fields of both are present. *)
Theorem change_merges_fields (id : EntryId) (updates : PartialTimeEntry)
    (st : State) :
  (∃ stored,
      changes (change id updates st) !! id = Some stored
      ∧ ∀ f, field f stored =
             match field f updates with
             | Some v => Some v
             | None => field f (default no_fields (changes st !! id))
             end)
  ∧ (changes st !! id = None →
     changes (change id updates st) !! id = Some updates)
  ∧ (∀ other, other ≠ id →
       changes (change id updates st) !! other = changes st !! other)
  ∧ (∀ later,
       (∀ f, is_Some (field f updates) → field f later = None) →
       ∃ both,
         changes (change id later (change id updates st)) !! id = Some both
         ∧ ∀ f,
             (is_Some (field f updates) → field f both = field f updates)
             ∧ (is_Some (field f later) → field f both = field f later))
  ∧ timeEntries (change id updates st) = timeEntries st
  ∧ activeTimeEntry (change id updates st) = activeTimeEntry st
  ∧ currentDate (change id updates st) = currentDate st.
Proof.
  split_and!; try done.
  - eexists. split; [apply change_stored|]. intros f.
    rewrite field_merge_partial. unfold JS.spread. by destruct (field f updates).
  - intros Hnone. rewrite change_stored, Hnone. simpl.
    by rewrite merge_partial_no_fields.
  - intros other Hne. by apply change_other.
  - intros later Hdisj. eexists. split; [apply change_stored|].
    rewrite change_stored. simpl. intros f.
    rewrite !field_merge_partial. unfold JS.spread. split.
    + intros Hu. rewrite (Hdisj f Hu). by destruct Hu as [v ->].
    + by intros [v ->].
Qed.

(** Notes typed on a card whose timer has ticked twice: both the time and
    the notes are pending; typing again overwrites the notes only. *)
Example change_keeps_disjoint_fields :
  let st := run [AStart "1"; ATick; ATick;
                 AChange "1" (notes_update "GST: draft")] fresh in
  changes st !! "1" = Some (mkPartial None (Some "GST: draft") (Some 2%Z) None)
  ∧ changes (change "1" (notes_update "GST: final") st) !! "1"
    = Some (mkPartial None (Some "GST: final") (Some 2%Z) None).
Proof. by vm_compute. Qed.

(** C10.  [clearChanges id] returns the state unchanged when [id] has no
    record, so applying it twice equals applying it once; and [revert id]
    leaves the whole state unchanged when [id] has no record and is not
    the active timer. *)
Theorem clearChanges_idempotent (id : EntryId) (st : State) :
  (changes st !! id = None → clearChanges id st = st)
  ∧ clearChanges id (clearChanges id st) = clearChanges id st
  ∧ (changes st !! id = None → activeTimeEntry st ≠ Some id →
     revert id st = st).
Proof.
  split_and!.
  - apply clearChanges_absent.
  - apply clearChanges_twice.
  - intros Hnone Hact. unfold revert.
    rewrite bool_decide_eq_false_2 by done. by apply clearChanges_absent.
Qed.

(** Witness of C10 on the seeded container: entry 2 is neither dirty nor
    timing while entry 1 is. *)
Lemma clearChanges_idempotent_witness :
  let st := tick (start "1" fresh) in
  clearChanges "2" st = st
  ∧ clearChanges "2" (clearChanges "2" st) = clearChanges "2" st
  ∧ revert "2" st = st.
Proof.
  intros st.
  destruct (clearChanges_idempotent "2" st) as (H1 & H2 & H3).
  split_and!; [apply H1 | apply H2 | apply H3]; by vm_compute.
Defined.

(** ** Save and revert *)

(** C6.  [revert id] removes the record of [id] from the change-set and
    keeps all other records, keeps the canonical entries (and the selected
    date), makes the timer idle when it was running on [id], and keeps the
    active timer otherwise. *)
Theorem revert_clears_and_pauses (id : EntryId) (st : State) :
  changes (revert id st) = delete id (changes st)
  ∧ changes (revert id st) !! id = None
  ∧ (id ∉ dirtyItems (revert id st))
  ∧ (∀ other, other ≠ id →
       changes (revert id st) !! other = changes st !! other)
  ∧ timeEntries (revert id st) = timeEntries st
  ∧ currentDate (revert id st) = currentDate st
  ∧ (activeTimeEntry st = Some id → activeTimeEntry (revert id st) = None)
  ∧ (activeTimeEntry st ≠ Some id →
     activeTimeEntry (revert id st) = activeTimeEntry st).
Proof.
  assert (Hc : changes (revert id st) = delete id (changes st)).
  { unfold revert. by case_bool_decide. }
  split_and!.
  - done.
  - rewrite Hc. apply lookup_delete_eq.
  - unfold dirtyItems. apply not_elem_of_dom. rewrite Hc.
    apply lookup_delete_eq.
  - intros other Hne. rewrite Hc. by apply lookup_delete_ne.
  - unfold revert. by case_bool_decide.
  - unfold revert. by case_bool_decide.
  - intros Hact. unfold revert. by rewrite bool_decide_eq_true_2.
  - intros Hact. unfold revert. by rewrite bool_decide_eq_false_2.
Qed.

(** Reverting the timing entry and reverting another entry. *)
Example revert_active_and_other :
  let st := run [AStart "1"; ATick; AChange "2" (notes_update "GST: x")]
                fresh in
  revert "1" st = change "2" (notes_update "GST: x") fresh
  ∧ activeTimeEntry (revert "2" st) = Some "1"
  ∧ changes (revert "2" st) !! "1" = Some (time_update 1).
Proof. by vm_compute. Qed.

(** C8.  [save id] returns the state as it was (canonical entries,
    change-set, active timer and selected date) when no canonical entry
    has this id or when the change-set has no record for it. *)
Theorem save_without_effect (id : EntryId) (st : State) :
  (∀ te, te ∈ timeEntries st → te_id te ≠ id) ∨ changes st !! id = None →
  save id st = st.
Proof.
  intros [Hno | Hclean]; unfold save.
  - apply find_entry_None in Hno. rewrite Hno. by destruct (changes st !! id).
  - by rewrite Hclean.
Qed.

(** Witness of C8: entry 2 has a canonical entry and no pending change;
    id 7 has a pending change and no canonical entry. *)
Lemma save_without_effect_witness :
  let st := change "7" (notes_update "orphan") (tick (start "1" fresh)) in
  save "2" st = st ∧ save "7" st = st.
Proof.
  intros st. split.
  - apply (save_without_effect "2" st). right. by vm_compute.
  - apply (save_without_effect "7" st). left.
    intros te Hin. apply list_elem_of_In in Hin. simpl in Hin.
    destruct Hin as [<- | [<- | []]]; discriminate.
Defined.

(** C4.  When the canonical list has an entry for [id] ([existing], the
    one [find] returns) and the change-set has a record for [id],
    [save id] puts the shallow merge of the record onto [existing], which
    is the merged view of [existing] before the save, in the place of every
    entry whose id is [id]; every entry with another id stays where it is;
    the record of [id] is removed from the change-set and the other
    records stay; the active timer and the selected date are unchanged. *)
Theorem save_commits_changes (id : EntryId) (st : State)
    (existing : TimeEntry) (itemChanges : PartialTimeEntry) :
  find_entry id (timeEntries st) = Some existing →
  changes st !! id = Some itemChanges →
  timeEntries (save id st) =
    map (λ te, if bool_decide (te_id te = id)
               then merge_entry existing itemChanges else te)
        (timeEntries st)
  ∧ merge_entry existing itemChanges = withChanges (changes st) existing
  ∧ (∀ i te, timeEntries st !! i = Some te → te_id te = id →
       timeEntries (save id st) !! i = Some (merge_entry existing itemChanges))
  ∧ (∀ i te, timeEntries st !! i = Some te → te_id te ≠ id →
       timeEntries (save id st) !! i = Some te)
  ∧ changes (save id st) = delete id (changes st)
  ∧ (id ∉ dirtyItems (save id st))
  ∧ (∀ other, other ≠ id →
       changes (save id st) !! other = changes st !! other)
  ∧ activeTimeEntry (save id st) = activeTimeEntry st
  ∧ currentDate (save id st) = currentDate st.
Proof.
  intros Hfind Hdirty.
  assert (Hsave : save id st =
    clearChanges id
      (setTimeEntries
         (map (λ te, if bool_decide (te_id te = id)
                     then merge_entry existing itemChanges else te)
              (timeEntries st)) st)).
  { unfold save. by rewrite Hfind, Hdirty. }
  rewrite Hsave. simpl. split_and!; try done.
  - unfold withChanges. apply find_entry_Some in Hfind as [_ ->].
    by rewrite Hdirty.
  - intros i te Hi Hid. rewrite list_lookup_fmap, Hi. simpl.
    by rewrite bool_decide_eq_true_2.
  - intros i te Hi Hid. rewrite list_lookup_fmap, Hi. simpl.
    by rewrite bool_decide_eq_false_2.
  - unfold dirtyItems. simpl. apply not_elem_of_dom, lookup_delete_eq.
  - intros other Hne. by apply lookup_delete_ne.
Qed.

(** Witness of C4: the example scenario of the specification.  After three
    ticks on entry 1, saving it makes its canonical time 3, empties the
    change-set and leaves entry 2 as seeded. *)
Lemma save_commits_changes_witness :
  let st := run [AStart "1"; ATick; ATick; ATick] fresh in
  timeEntries (save "1" st) =
    [ mkTimeEntry "1" "GST: hello world" 3 (Some feb_1);
      mkTimeEntry "2" "GST: another item" 0 (Some feb_1) ]
  ∧ changes (save "1" st) = ∅.
Proof.
  intros st.
  destruct (save_commits_changes "1" st
              (mkTimeEntry "1" "GST: hello world" 0 (Some feb_1))
              (time_update 3) eq_refl eq_refl)
    as (Hentries & _ & _ & _ & Hchanges & _).
  split; [rewrite Hentries | rewrite Hchanges]; by vm_compute.
Defined.

(** ** Timer *)

Lemma to_double_exact (z : Z) :
  (Z.abs z ≤ JS.two53)%Z → JS.to_double z = z.
Proof.
  intros H. unfold JS.to_double. cbv zeta.
  destruct (Z.leb_spec (Z.abs z) JS.two53); [done|lia].
Qed.

Lemma to_double_pos (z : Z) : (1 ≤ z)%Z → (1 ≤ JS.to_double z)%Z.
Proof.
  intros Hz. unfold JS.to_double. cbv zeta.
  destruct (Z.leb_spec (Z.abs z) JS.two53) as [|Hbig]; [done|].
  rewrite Z.sgn_pos by lia. rewrite (Z.abs_eq z) in * by lia.
  assert (H53 : (53 ≤ Z.log2 z)%Z).
  { apply Z.log2_le_pow2; [lia|]. unfold JS.two53 in Hbig. lia. }
  set (e := (Z.log2 z - 52)%Z) in *.
  assert (He : (0 < 2 ^ e)%Z) by (apply Z.pow_pos_nonneg; lia).
  assert (Hq : (1 ≤ z / 2 ^ e)%Z).
  { apply Z.div_le_lower_bound; [done|].
    rewrite Z.mul_1_r.
    transitivity (2 ^ Z.log2 z)%Z.
    - apply Z.pow_le_mono_r; lia.
    - apply Z.log2_spec. lia. }
  repeat case_match; nia.
Qed.

Lemma add_exact (a b : Z) :
  (Z.abs (a + b) ≤ JS.two53)%Z → JS.add a b = (a + b)%Z.
Proof. intros H. unfold JS.add. by apply to_double_exact. Qed.

Lemma currentTime_effective_time (id : EntryId) (st : State) :
  changes st !! id ≫= p_time ≠ Some 0%Z →
  currentTime id st = effective_time id st.
Proof.
  unfold currentTime, effective_time. intros Hnz.
  destruct (changes st !! id ≫= p_time) as [t|]; simpl.
  - destruct (Z.eqb_spec t 0) as [-> | Hne]; [done|]. simpl.
    by destruct (Z.eqb_spec t 0).
  - destruct (find_entry id (timeEntries st)) as [te|]; simpl; [|done].
    by destruct (Z.eqb_spec (te_time te) 0).
Qed.

(** What a tick reads when the pending time is [0]: [||] skips it, as it
    skips a canonical time of [0]. *)
Lemma currentTime_falsy_zero (id : EntryId) (st : State) :
  changes st !! id ≫= p_time = Some 0%Z →
  currentTime id st =
    match find_entry id (timeEntries st) with
    | Some te => te_time te
    | None => 0%Z
    end.
Proof.
  unfold currentTime. intros ->. simpl.
  destruct (find_entry id (timeEntries st)) as [te|]; simpl; [|done].
  by destruct (Z.eqb_spec (te_time te) 0).
Qed.

(** The tick of a running timer, where the sum is exact. *)
Lemma tick_running (st : State) (id : EntryId) :
  activeTimeEntry st = Some id →
  id ≠ "" →
  changes st !! id ≫= p_time ≠ Some 0%Z →
  (Z.abs (effective_time id st + 1) ≤ JS.two53)%Z →
  tick st = change id (time_update (effective_time id st + 1)) st.
Proof.
  intros Hact Hid Hnz Hsafe. unfold tick. rewrite Hact.
  apply truthy_string_nonempty in Hid. rewrite Hid.
  by rewrite currentTime_effective_time, add_exact.
Qed.







(** The example scenario of the specification. *)
Example three_ticks_then_save :
  let st := run [AStart "1"; ATick; ATick; ATick] fresh in
  changes st = {[ "1" := time_update 3 ]}
  ∧ te_time <$> default [] (timeEntriesWithChanges st) = [3%Z; 0%Z]
  ∧ dirtyItems st = {[ "1" ]}
  ∧ te_time <$> timeEntries (save "1" st) = [3%Z; 0%Z]
  ∧ changes (save "1" st) = ∅.
Proof. by vm_compute. Qed.

(** ** The dirty-tracking invariant *)

Section DirtyInvariant.

Implicit Types (id : EntryId) (st : State) (c : ChangedEntries).








End DirtyInvariant.

(** ** Derived view *)

Lemma filter_throwing_total {A : Type} (p : A → option bool) (q : A → bool)
    (l : list A) :
  Forall (λ x, p x = Some (q x)) l →
  JS.filter_throwing p l = Some (List.filter q l).
Proof.
  induction 1 as [|x l Hx _ IH]; simpl; [done|].
  rewrite Hx, IH. by destruct (q x).
Qed.

Lemma filter_throwing_throws {A : Type} (p : A → option bool) (l : list A) :
  JS.filter_throwing p l = None ↔ ∃ x, x ∈ l ∧ p x = None.
Proof.
  induction l as [|x l IH]; simpl.
  - split; [done|]. intros (x & Hx & _). by apply elem_of_nil in Hx.
  - destruct (p x) as [b|] eqn:Hpx.
    + destruct (JS.filter_throwing p l) as [kept|] eqn:Hl.
      * split; [done|]. intros (y & Hy & Hpy).
        apply elem_of_cons in Hy as [-> | Hy]; [congruence|].
        assert (Hex : ∃ x, x ∈ l ∧ p x = None) by eauto.
        apply IH in Hex. discriminate.
      * split; [|done]. intros _.
        destruct (proj1 IH eq_refl) as (y & Hy & Hpy).
        exists y. split; [by right | done].
    + split; [|done]. intros _. exists x. split; [by left | done].
Qed.

Lemma onSelectedDay_present (selected : option Moment) (te : TimeEntry) :
  is_Some (te_date te) →
  onSelectedDay selected te = Some (same_day_of_year selected te).
Proof.
  intros [d Hd]. unfold onSelectedDay, same_day_of_year. rewrite Hd.
  by destruct selected.
Qed.

Lemma same_day_of_year_no_selection (l : list TimeEntry) :
  List.filter (same_day_of_year None) l = [].
Proof.
  induction l as [|te l IH]; [done|]. simpl.
  unfold same_day_of_year at 1. by destruct (te_date te).
Qed.

(** The render completes when every merged entry has a date. *)
Lemma timeEntriesWithChanges_completes (st : State) :
  dates_present st →
  timeEntriesWithChanges st =
    Some (List.filter (same_day_of_year (currentDate st))
            (map (withChanges (changes st)) (timeEntries st))).
Proof.
  intros Hdates. unfold timeEntriesWithChanges.
  apply filter_throwing_total. apply Forall_fmap.
  eapply Forall_impl; [exact Hdates|]. simpl.
  intros te Hte. by apply onSelectedDay_present.
Qed.

(** The render throws exactly when some merged entry has no date. *)
Lemma timeEntriesWithChanges_throws (st : State) :
  timeEntriesWithChanges st = None
  ↔ ∃ te, te ∈ timeEntries st
          ∧ te_date (withChanges (changes st) te) = None.
Proof.
  unfold timeEntriesWithChanges. rewrite filter_throwing_throws. split.
  - intros (m & Hm & Hp). apply list_elem_of_fmap in Hm as (te & -> & Hte).
    exists te. split; [done|]. unfold onSelectedDay in Hp.
    by destruct (te_date (withChanges (changes st) te)).
  - intros (te & Hte & Hd). exists (withChanges (changes st) te). split.
    + apply list_elem_of_fmap. eauto.
    + unfold onSelectedDay. by rewrite Hd.
Qed.

(** Clearing the date picker of a visible card always leads to a state
    whose render throws. *)
Lemma clearing_entry_date_throws (st : State) (te : TimeEntry) :
  te ∈ timeEntries st →
  timeEntriesWithChanges (change (te_id te) (date_update None) st) = None.
Proof.
  intros Hte. apply timeEntriesWithChanges_throws. exists te.
  split; [done|]. unfold withChanges. rewrite change_stored. simpl.
  done.
Qed.

(** C5 at the failing input: once the date picker of a card has been
    cleared, computing the derived view throws instead of producing a
    list. *)
Theorem derived_view_throws_after_clearing_entry_date :
  changes date_cleared !! "1" = Some (date_update None)
  ∧ te_date <$> (map (withChanges (changes date_cleared))
                     (timeEntries date_cleared)) = [None; Some feb_1]
  ∧ timeEntriesWithChanges date_cleared = None.
Proof. split_and!; by vm_compute. Qed.

(** When every merged entry has a date, the derived view is the list of
    merged entries (the change-set record laid over the canonical entry
    when there is one, the canonical entry otherwise), in order, filtered
    to those whose day of the year is the selected date's. *)
Theorem derived_view_merges_then_filters (st : State) :
  dates_present st →
  timeEntriesWithChanges st =
    Some (List.filter (same_day_of_year (currentDate st))
            (map (λ te, match changes st !! te_id te with
                        | Some p => merge_entry te p
                        | None => te
                        end)
                 (timeEntries st))).
Proof. apply timeEntriesWithChanges_completes. Qed.

(** Entry 1 has three pending seconds, entry 2 was moved to the next
    day: only the merged entry 1 is visible on the selected day. *)
Lemma derived_view_merges_then_filters_witness :
  timeEntriesWithChanges
    (run [AStart "1"; ATick; ATick; ATick;
          AChange "2" (date_update (Some feb_2))] fresh)
  = Some [ mkTimeEntry "1" "GST: hello world" 3 (Some feb_1) ].
Proof.
  rewrite derived_view_merges_then_filters; [by vm_compute|].
  apply (bool_decide_unpack _). by vm_compute.
Defined.

(** When every merged entry has a date and the selected date is cleared,
    the derived view is empty whatever the canonical entries are; and
    selecting or clearing a date changes neither the canonical entries,
    nor the change-set, nor the active timer. *)
Theorem cleared_selection_shows_nothing (st : State) (d : option Moment) :
  dates_present st →
  timeEntriesWithChanges (setCurrentDate None st) = Some []
  ∧ timeEntries (setCurrentDate d st) = timeEntries st
  ∧ changes (setCurrentDate d st) = changes st
  ∧ activeTimeEntry (setCurrentDate d st) = activeTimeEntry st
  ∧ currentDate (setCurrentDate d st) = d.
Proof.
  intros Hdates. split_and!; try done.
  rewrite timeEntriesWithChanges_completes by done. simpl.
  by rewrite same_day_of_year_no_selection.
Qed.

(** The seeded entries exist, and nothing is visible once the selected
    date is cleared. *)
Lemma cleared_selection_shows_nothing_witness :
  timeEntries fresh ≠ []
  ∧ timeEntriesWithChanges (setCurrentDate None fresh) = Some [].
Proof.
  split.
  - discriminate.
  - refine (proj1 (cleared_selection_shows_nothing fresh None _)).
    apply (bool_decide_unpack _). by vm_compute.
Defined.

(** Selecting a day on which no entry is dated shows nothing and leaves
    the pending second of entry 1 in place. *)
Example other_day_shows_nothing :
  let st := run [AStart "1"; ATick; ASetCurrentDate (Some feb_2)] fresh in
  timeEntriesWithChanges st = Some []
  ∧ changes st = {[ "1" := time_update 1 ]}
  ∧ timeEntries st = timeEntries fresh.
Proof. by vm_compute. Qed.

(** ** Start-up *)

Section StartupFacts.

Variable JSON_parse : string → option ChangedEntries.
Implicit Types (localStorage : gmap string string).

Lemma localData_absent localStorage :
  localStorage !! LOCAL_KEY_CHANGES = None →
  localData JSON_parse localStorage = ∅.
Proof. intros H. unfold localData. by rewrite H. Qed.

Lemma localData_unparseable localStorage raw :
  localStorage !! LOCAL_KEY_CHANGES = Some raw →
  JSON_parse raw = None →
  localData JSON_parse localStorage = ∅.
Proof.
  intros H Hp. unfold localData. rewrite H, Hp.
  by destruct (JS.truthy_string raw).
Qed.

Lemma localData_parsed localStorage raw c :
  localStorage !! LOCAL_KEY_CHANGES = Some raw →
  raw ≠ "" →
  JSON_parse raw = Some c →
  localData JSON_parse localStorage = c.
Proof.
  intros H Hne Hp. unfold localData. rewrite H, Hp.
  apply truthy_string_nonempty in Hne. by rewrite Hne.
Qed.

(** Had [App] been given the mapping under the name it reads, its
    change-set would start as that mapping. *)
Lemma App_mount_savedChanges (t1 t2 mounted : Moment) (c : ChangedEntries) :
  changes <$> App_mount t1 t2 mounted (<["savedChanges" := PChanges c]> ∅)
  = Some c.
Proof. unfold App_mount, savedChanges. by rewrite lookup_insert_eq. Qed.

End StartupFacts.

(** C1 on every input: index.tsx passes the mapping it read under the
    prop name [initChanges], and [App] initialises its change-set from the
    prop [savedChanges]; so whatever local storage holds, the initial
    change-set of the container is [undefined]: it is neither the
    persisted mapping nor the empty mapping. *)
Theorem persisted_changes_do_not_reach_App
    (JSON_parse : string → option ChangedEntries)
    (localStorage : gmap string string) (t1 t2 mounted : Moment) :
  index_props JSON_parse localStorage !! "initChanges"
    = Some (PChanges (localData JSON_parse localStorage))
  ∧ savedChanges (index_props JSON_parse localStorage) = None
  ∧ App_mount t1 t2 mounted (index_props JSON_parse localStorage) = None.
Proof.
  assert (Hsaved : savedChanges (index_props JSON_parse localStorage) = None).
  { unfold savedChanges, index_props.
    rewrite lookup_insert_ne by done. rewrite lookup_insert_ne by done.
    by rewrite lookup_empty. }
  split_and!.
  - unfold index_props. apply lookup_insert_eq.
  - done.
  - unfold App_mount. by rewrite Hsaved.
Qed.

(** ** Well-formed states are kept by the handlers *)

Section WellFormed.

Implicit Types (id : EntryId) (st : State) (p updates : PartialTimeEntry).

Lemma sound_record_merge p updates :
  (p = no_fields ∨ sound_record p) →
  has_field updates = true → p_id updates = None →
  from_option (λ t, (1 ≤ t)%Z) True (p_time updates) →
  sound_record (merge_partial p updates).
Proof.
  intros Hp Hf Hid Ht. unfold sound_record.
  rewrite has_field_merge_partial, Hf, orb_true_r. simpl. rewrite Hid. simpl.
  split; [done|]. split.
  - destruct Hp as [-> | (_ & Hpid & _)]; done.
  - destruct (p_time updates) as [t|]; simpl; [done|].
    destruct Hp as [-> | (_ & _ & Hpt)]; done.
Qed.

Lemma well_formed_change id updates st :
  well_formed st → id ∈ entry_ids st →
  has_field updates = true → p_id updates = None →
  from_option (λ t, (1 ≤ t)%Z) True (p_time updates) →
  well_formed (change id updates st).
Proof.
  intros (Hnd & Hte & Hch & Hact) Hid Hf Hpid Ht.
  split_and!; try done. unfold change. simpl.
  apply map_Forall_insert_2; [|done]. split; [|done].
  apply sound_record_merge; try done.
  destruct (changes st !! id) as [p|] eqn:E; simpl; [right|by left].
  by destruct (Hch id p E).
Qed.

Lemma well_formed_clearChanges id st :
  well_formed st → well_formed (clearChanges id st).
Proof.
  intros (Hnd & Hte & Hch & Hact). split_and!; try done.
  unfold clearChanges. simpl. by apply map_Forall_delete.
Qed.

Lemma currentTime_nonneg id st :
  well_formed st → (0 ≤ currentTime id st)%Z.
Proof.
  intros (_ & Hte & Hch & _). unfold currentTime.
  assert (Hcanon : from_option (λ t, (0 ≤ t)%Z) True
            (te_time <$> find_entry id (timeEntries st))).
  { destruct (find_entry id (timeEntries st)) as [te|] eqn:E; simpl; [|done].
    apply find_entry_Some in E as [Hin _].
    by destruct (proj1 (Forall_forall _ _) Hte te Hin). }
  assert (Hpend : from_option (λ t, (1 ≤ t)%Z) True
            (changes st !! id ≫= p_time)).
  { destruct (changes st !! id) as [p|] eqn:E; simpl; [|done].
    by destruct (Hch id p E) as [(_ & _ & Hp) _]. }
  destruct (changes st !! id ≫= p_time) as [t|]; simpl in *.
  - destruct (Z.eqb_spec t 0); [lia|]. simpl. destruct (Z.eqb_spec t 0); lia.
  - destruct (te_time <$> find_entry id (timeEntries st)) as [t|]; simpl in *;
      [|lia]. destruct (Z.eqb_spec t 0); lia.
Qed.

Lemma well_formed_tick st : well_formed st → well_formed (tick st).
Proof.
  intros Hwf. unfold tick.
  destruct (activeTimeEntry st) as [a|] eqn:Ea; [|done].
  destruct (JS.truthy_string a); [|done].
  apply well_formed_change; try done.
  - destruct Hwf as (_ & _ & _ & Hact). by rewrite Ea in Hact.
  - simpl. pose proof (currentTime_nonneg a st Hwf).
    apply to_double_pos. lia.
Qed.

Lemma well_formed_revert id st : well_formed st → well_formed (revert id st).
Proof.
  intros Hwf. unfold revert. apply well_formed_clearChanges.
  case_bool_decide; [|done].
  destruct Hwf as (Hnd & Hte & Hch & Hact). by split_and!.
Qed.

Lemma entry_ids_save id st :
  well_formed st → entry_ids (save id st) = entry_ids st.
Proof.
  intros (_ & _ & Hch & _). unfold save.
  destruct (changes st !! id) as [p|] eqn:Ep; [|done].
  destruct (find_entry id (timeEntries st)) as [ex|] eqn:Ef; [|done].
  unfold entry_ids. simpl. rewrite <- list_fmap_compose.
  apply list_fmap_ext. intros i te _. simpl.
  case_bool_decide as Hid; [|done].
  destruct (Hch id p Ep) as [(_ & Hpid & _) _].
  apply find_entry_Some in Ef as [_ Hex].
  unfold merge_entry. simpl. rewrite Hpid. simpl. congruence.
Qed.

Lemma well_formed_save id st : well_formed st → well_formed (save id st).
Proof.
  intros Hwf. pose proof (entry_ids_save id st Hwf) as Hids.
  destruct Hwf as (Hnd & Hte & Hch & Hact).
  unfold well_formed. rewrite Hids.
  unfold save in *.
  destruct (changes st !! id) as [p|] eqn:Ep; [|done].
  destruct (find_entry id (timeEntries st)) as [ex|] eqn:Ef; [|done].
  simpl. split_and!; try done.
  - apply Forall_fmap. eapply Forall_impl; [exact Hte|]. simpl.
    intros te [Hne Hnn]. case_bool_decide as Hid; [|done].
    destruct (Hch id p Ep) as [(_ & Hpid & Hpt) _].
    apply find_entry_Some in Ef as [Hin Hex].
    destruct (proj1 (Forall_forall _ _) Hte ex Hin) as [Hexne Hexnn].
    unfold merge_entry. simpl. rewrite Hpid. simpl. split; [done|].
    destruct (p_time p); simpl in *; lia.
  - by apply map_Forall_delete.
Qed.

Lemma well_formed_handle st (a : Action) :
  well_formed st → user_action st a →
  well_formed (handle st a) ∧ entry_ids (handle st a) = entry_ids st.
Proof.
  intros Hwf Ha. destruct a as [id u|id|id| | |id|id|d]; simpl in *.
  - split; [|done]. destruct Ha as [Hid [[v ->] | [d ->]]];
      by apply well_formed_change.
  - split; [|done]. by apply well_formed_clearChanges.
  - split; [|done]. destruct Hwf as (Hnd & Hte & Hch & Hact). by split_and!.
  - split; [|done]. destruct Hwf as (Hnd & Hte & Hch & Hact). by split_and!.
  - split; [by apply well_formed_tick|].
    unfold tick. by repeat case_match.
  - split; [by apply well_formed_revert|].
    unfold revert. by case_bool_decide.
  - split; [by apply well_formed_save | by apply entry_ids_save].
  - split; [|done]. destruct Hwf as (Hnd & Hte & Hch & Hact). by split_and!.
Qed.

Lemma well_formed_dirty_invariant st :
  well_formed st → dirty_invariant (changes st).
Proof.
  intros (_ & _ & Hch & _) id p Hp. by destruct (Hch id p Hp) as [(? & _) _].
Qed.

Lemma find_entry_is_Some id (l : list TimeEntry) :
  id ∈ te_id <$> l → is_Some (find_entry id l).
Proof.
  intros Hin. destruct (find_entry id l) as [te|] eqn:E; [by eexists|].
  apply list_elem_of_fmap in Hin as (te & -> & Hte).
  by destruct (proj1 (find_entry_None _ _) E te Hte).
Qed.

Lemma well_formed_active st id :
  well_formed st → activeTimeEntry st = Some id →
  id ≠ "" ∧ changes st !! id ≫= p_time ≠ Some 0%Z
  ∧ (0 ≤ effective_time id st)%Z
  ∧ is_Some (find_entry id (timeEntries st)).
Proof.
  intros Hwf Hact.
  assert (Hnz : changes st !! id ≫= p_time ≠ Some 0%Z).
  { destruct Hwf as (_ & _ & Hch & _).
    destruct (changes st !! id) as [p|] eqn:E; simpl; [|done].
    destruct (Hch id p E) as [(_ & _ & Hp) _].
    destruct (p_time p) as [t|]; simpl in *; [|done]. intros [= ->]. lia. }
  split_and!.
  - destruct Hwf as (_ & Hte & _ & Ha). rewrite Hact in Ha. simpl in Ha.
    apply list_elem_of_fmap in Ha as (te & -> & Hin).
    by destruct (proj1 (Forall_forall _ _) Hte te Hin).
  - done.
  - rewrite <- currentTime_effective_time by done.
    by apply currentTime_nonneg.
  - destruct Hwf as (_ & _ & _ & Ha). rewrite Hact in Ha.
    by apply find_entry_is_Some.
Qed.

Lemma tick_active_well_formed st id :
  well_formed st → activeTimeEntry st = Some id →
  (effective_time id st < JS.two53)%Z →
  tick st = change id (time_update (effective_time id st + 1)) st.
Proof.
  intros Hwf Hact Hsafe.
  destruct (well_formed_active st id Hwf Hact) as (Hne & Hnz & Hnn & _).
  apply tick_running; try done. unfold JS.two53 in *. lia.
Qed.

End WellFormed.

(** ** What a render shows and what its controls trigger *)

Lemma filter_throwing_Some {A : Type} (p : A → option bool)
    (l kept : list A) :
  JS.filter_throwing p l = Some kept →
  kept = List.filter (λ x, default false (p x)) l
  ∧ Forall (λ x, is_Some (p x)) l.
Proof.
  revert kept. induction l as [|x l IH]; simpl; intros kept H.
  - by simplify_eq.
  - destruct (p x) as [b|] eqn:Hpx; [|done].
    destruct (JS.filter_throwing p l) as [k|]; [|done].
    destruct (IH k eq_refl) as [-> Hall]. simplify_eq. simpl.
    split; [by destruct b|]. constructor; [by rewrite Hpx|done].
Qed.

Lemma filter_sublist {A : Type} (q : A → bool) (l : list A) :
  List.filter q l `sublist_of` l.
Proof.
  induction l as [|x l IH]; simpl; [done|].
  destruct (q x); by constructor.
Qed.

Lemma withChanges_id (st : State) (te : TimeEntry) :
  well_formed st → te_id (withChanges (changes st) te) = te_id te.
Proof.
  intros (_ & _ & Hch & _). unfold withChanges.
  destruct (changes st !! te_id te) as [p|] eqn:E; [|done].
  destruct (Hch _ p E) as [(_ & Hpid & _) _]. simpl. by rewrite Hpid.
Qed.

Lemma visible_sublist (st : State) (visible : list TimeEntry) :
  timeEntriesWithChanges st = Some visible →
  visible `sublist_of` (withChanges (changes st) <$> timeEntries st).
Proof.
  unfold timeEntriesWithChanges. intros H.
  apply filter_throwing_Some in H as [-> _]. apply filter_sublist.
Qed.

Lemma visible_ids (st : State) (visible : list TimeEntry) :
  well_formed st → timeEntriesWithChanges st = Some visible →
  (te_id <$> visible) `sublist_of` entry_ids st.
Proof.
  intros Hwf H. apply visible_sublist in H.
  apply (fmap_sublist te_id) in H. rewrite <- list_fmap_compose in H.
  unfold entry_ids.
  rewrite (list_fmap_ext te_id (te_id ∘ withChanges (changes st))
             (timeEntries st)); [exact H|].
  intros i te _. simpl. symmetry. by apply withChanges_id.
Qed.

Lemma visible_entry_id (st : State) (visible : list TimeEntry) (i : nat)
    (te : TimeEntry) :
  well_formed st → timeEntriesWithChanges st = Some visible →
  visible !! i = Some te → te_id te ∈ entry_ids st.
Proof.
  intros Hwf Hv Hi. eapply elem_of_sublist; [|by apply visible_ids].
  apply list_elem_of_fmap_2. by eapply list_elem_of_lookup_2.
Qed.

Lemma App_render_cards (st : State) (view : AppElement) :
  App_render st = Some view →
  ∃ visible, timeEntriesWithChanges st = Some visible
             ∧ cards view = card_of st <$> visible
             ∧ selected_value view = currentDate st
             ∧ selected_onChange view = ASetCurrentDate
             ∧ onClick (add view) = None.
Proof.
  unfold App_render.
  destruct (timeEntriesWithChanges st) as [visible|]; [|done].
  intros [= <-]. by exists visible.
Qed.

Lemma cards_lookup (st : State) (view : AppElement) (i : nat)
    (el : Card.Element) :
  App_render st = Some view → cards view !! i = Some el →
  ∃ visible te, timeEntriesWithChanges st = Some visible
                ∧ visible !! i = Some te ∧ el = card_of st te.
Proof.
  intros Hr Hel.
  destruct (App_render_cards st view Hr) as (visible & Hv & Hc & _).
  rewrite Hc, list_lookup_fmap in Hel.
  destruct (visible !! i) as [te|] eqn:Hi; [|done].
  exists visible, te. by simplify_eq/=.
Qed.

Lemma isDirty_card (st : State) (id : EntryId) :
  bool_decide (id ∈ elements (dirtyItems st))
  = bool_decide (is_Some (changes st !! id)).
Proof.
  apply bool_decide_ext. unfold dirtyItems. rewrite elem_of_elements.
  apply elem_of_dom.
Qed.

Lemma buttons_card_of (st : State) (te : TimeEntry) :
  buttons (card_of st te) =
    (if bool_decide (activeTimeEntry st = Some (te_id te))
     then ["Pause"] else ["Start"])
    ++ (if bool_decide (is_Some (changes st !! te_id te))
        then ["Revert"; "Save"] else []).
Proof.
  unfold buttons, card_of, Card.render. simpl. rewrite isDirty_card.
  by repeat case_bool_decide.
Qed.

Lemma Pause_shown (st : State) (te : TimeEntry) :
  "Pause" ∈ buttons (card_of st te) ↔ activeTimeEntry st = Some (te_id te).
Proof.
  rewrite buttons_card_of.
  repeat case_bool_decide; simpl; split; intros Hshown; try done;
    try (by apply (bool_decide_unpack _));
    by apply (bool_decide_pack _) in Hshown.
Qed.

Lemma Save_shown (st : State) (te : TimeEntry) :
  "Save" ∈ buttons (card_of st te) ↔ is_Some (changes st !! te_id te).
Proof.
  rewrite buttons_card_of.
  repeat case_bool_decide; simpl; split; intros Hshown; try done;
    try (by apply (bool_decide_unpack _));
    by apply (bool_decide_pack _) in Hshown.
Qed.

Lemma Revert_shown (st : State) (te : TimeEntry) :
  "Revert" ∈ buttons (card_of st te) ↔ is_Some (changes st !! te_id te).
Proof.
  rewrite buttons_card_of.
  repeat case_bool_decide; simpl; split; intros Hshown; try done;
    try (by apply (bool_decide_unpack _));
    by apply (bool_decide_pack _) in Hshown.
Qed.

(** What each user event triggers, read off the render. *)
Lemma fire_cases (st : State) (view : AppElement) (ev : UIEvent)
    (a : Action) :
  App_render st = Some view → fire view ev = Some a →
  match ev with
  | Click i button =>
      ∃ visible te, timeEntriesWithChanges st = Some visible
        ∧ visible !! i = Some te
        ∧ button ∈ buttons (card_of st te)
        ∧ ((button = "Start" ∧ a = AStart (te_id te))
           ∨ (button = "Pause" ∧ a = APause)
           ∨ (button = "Revert" ∧ a = ARevert (te_id te))
           ∨ (button = "Save" ∧ a = ASave (te_id te)))
  | TypeNotes i value =>
      ∃ visible te, timeEntriesWithChanges st = Some visible
        ∧ visible !! i = Some te
        ∧ a = AChange (te_id te) (notes_update value)
  | PickDate i d =>
      ∃ visible te, timeEntriesWithChanges st = Some visible
        ∧ visible !! i = Some te
        ∧ a = AChange (te_id te) (date_update d)
  | SelectDate d => a = ASetCurrentDate d
  | ClickNew => False
  | Interval => a = ATick
  end.
Proof.
  intros Hr Hf.
  apply App_render_cards in Hr as (visible & Hv & Hc & _ & Hsel & Hadd).
  destruct ev as [i button|i value|i d|d| |]; simpl in Hf.
  - rewrite Hc, list_lookup_fmap in Hf.
    destruct (visible !! i) as [te|] eqn:Ei; [|done]. simpl in Hf.
    exists visible, te. split; [done|]. split; [done|].
    destruct (List.find _ _) as [b|] eqn:Eb; [|done]. simpl in Hf.
    apply find_some in Eb as [Hin Hlab].
    apply String.eqb_eq in Hlab. subst button.
    split.
    { unfold buttons. apply list_elem_of_fmap. exists b.
      split; [done|]. by apply list_elem_of_In. }
    unfold card_of, Card.render, shown_if in Hin. simpl in Hin.
    repeat case_bool_decide; simpl in Hin;
      repeat (destruct Hin as [<- | Hin]; [simpl in *; simplify_eq; tauto|]);
      done.
  - rewrite Hc, list_lookup_fmap in Hf.
    destruct (visible !! i) as [te|] eqn:Ei; [|done]. simpl in Hf.
    exists visible, te. by simplify_eq.
  - rewrite Hc, list_lookup_fmap in Hf.
    destruct (visible !! i) as [te|] eqn:Ei; [|done]. simpl in Hf.
    exists visible, te. by simplify_eq.
  - rewrite Hsel in Hf. by simplify_eq.
  - by rewrite Hadd in Hf.
  - by simplify_eq.
Qed.

Lemma fire_user_action (st : State) (view : AppElement) (ev : UIEvent)
    (a : Action) :
  well_formed st → App_render st = Some view → fire view ev = Some a →
  user_action st a.
Proof.
  intros Hwf Hr Hf. pose proof (fire_cases st view ev a Hr Hf) as Hc.
  destruct ev as [i button|i value|i d|d| |].
  - destruct Hc as (visible & te & Hv & Hi & _ & Hb).
    destruct Hb as [[_ ->] | [[_ ->] | [[_ ->] | [_ ->]]]]; simpl; try done.
    by eapply visible_entry_id.
  - destruct Hc as (visible & te & Hv & Hi & ->). simpl.
    split; [by eapply visible_entry_id | left; eauto].
  - destruct Hc as (visible & te & Hv & Hi & ->). simpl.
    split; [by eapply visible_entry_id | right; eauto].
  - by subst a.
  - done.
  - by subst a.
Qed.

(** ** User sessions keep the state well formed *)

Lemma ui_step_well_formed (st st' : State) (ev : UIEvent) :
  well_formed st → ui_step st ev = Some st' →
  well_formed st' ∧ entry_ids st' = entry_ids st.
Proof.
  intros Hwf. unfold ui_step.
  destruct (App_render st) as [view|] eqn:Hr; [|done].
  destruct (fire view ev) as [a|] eqn:Hf; intros [= <-]; [|done].
  apply well_formed_handle; [done|]. by eapply fire_user_action.
Qed.

Lemma ui_run_well_formed (events : list UIEvent) (st st' : State) :
  well_formed st → ui_run events st = Some st' →
  well_formed st' ∧ entry_ids st' = entry_ids st.
Proof.
  revert st. induction events as [|ev events IH]; simpl; intros st Hwf H.
  - by simplify_eq.
  - destruct (ui_step st ev) as [st1|] eqn:E; [|done].
    destruct (ui_step_well_formed st st1 ev Hwf E) as [Hwf1 Hids1].
    destruct (IH st1 Hwf1 H) as [Hwf' Hids']. split; [done|congruence].
Qed.

(** X3.  Whatever the user does on the page (buttons of the cards, notes,
    dates, date selector, "New") and however often the interval elapses,
    a session started in a well-formed state only reaches well-formed
    states: the canonical entries keep their ids and their order, no
    record of the change-set is empty, every dirty id and the active timer
    belong to a canonical entry, and the active id is not empty. *)
Theorem session_keeps_state_well_formed (st0 st : State)
    (events : list UIEvent) :
  well_formed st0 →
  ui_run events st0 = Some st →
  well_formed st
  ∧ te_id <$> timeEntries st = te_id <$> timeEntries st0
  ∧ dirty_invariant (changes st)
  ∧ (∀ id, is_Some (changes st !! id) →
       is_Some (find_entry id (timeEntries st)))
  ∧ (∀ id, activeTimeEntry st = Some id →
       id ≠ "" ∧ is_Some (find_entry id (timeEntries st))).
Proof.
  intros Hwf0 Hrun.
  destruct (ui_run_well_formed events st0 st Hwf0 Hrun) as [Hwf Hids].
  split_and!; [done | done | by apply well_formed_dirty_invariant | |].
  - intros id [p Hp]. destruct Hwf as (_ & _ & Hch & _).
    destruct (Hch id p Hp) as [_ Hin]. by apply find_entry_is_Some.
  - intros id Hact. destruct Hwf as (_ & Hte & _ & Ha). rewrite Hact in Ha.
    simpl in Ha. split; [|by apply find_entry_is_Some].
    apply list_elem_of_fmap in Ha as (te & -> & Hin).
    by destruct (proj1 (Forall_forall _ _) Hte te Hin).
Qed.

(** A session on the seeded container. *)
Lemma session_keeps_state_well_formed_witness :
  let events :=
    [Click 0 "Start"; Interval; Interval; TypeNotes 1 "GST: call";
     Click 0 "Save"; SelectDate None; Click 1 "Revert"] in
  ∃ st, ui_run events fresh = Some st
        ∧ well_formed st
        ∧ te_id <$> timeEntries st = ["1"; "2"].
Proof.
  intros events. eexists. split; [by vm_compute|].
  refine (let H := session_keeps_state_well_formed fresh _ events _ _ in
          conj (proj1 H) (proj1 (proj2 H))).
  - apply (bool_decide_unpack _). by vm_compute.
  - by vm_compute.
Defined.

(** X4.  In a well-formed state whose timer runs on an entry with an
    effective time below [2^53], a tick is the change that sets the
    pending time of that entry to one plus its effective time (pending
    override if present, else canonical time); the active id has a
    canonical entry, the new pending time is at least one second, and the
    state stays well formed. *)
Theorem tick_on_well_formed_state (st : State) (id : EntryId) :
  well_formed st →
  activeTimeEntry st = Some id →
  (effective_time id st < JS.two53)%Z →
  tick st = change id (time_update (effective_time id st + 1)) st
  ∧ changes (tick st) !! id ≫= p_time = Some (effective_time id st + 1)%Z
  ∧ (1 ≤ effective_time id st + 1)%Z
  ∧ is_Some (find_entry id (timeEntries st))
  ∧ well_formed (tick st).
Proof.
  intros Hwf Hact Hsafe.
  pose proof (tick_active_well_formed st id Hwf Hact Hsafe) as Htick.
  destruct (well_formed_active st id Hwf Hact) as (_ & _ & Hnn & Hfind).
  split_and!.
  - done.
  - rewrite Htick, change_stored. done.
  - lia.
  - done.
  - by apply well_formed_tick.
Qed.

(** The second tick on the seeded entry 2. *)
Lemma tick_on_well_formed_state_witness :
  changes (tick (tick (start "2" fresh))) !! "2" ≫= p_time = Some 2%Z.
Proof.
  refine (proj1 (proj2
    (tick_on_well_formed_state (tick (start "2" fresh)) "2" _ _ _))).
  - apply (bool_decide_unpack _). by vm_compute.
  - reflexivity.
  - by vm_compute.
Defined.

(** ** The dirty-tracking invariant in sessions and at start-up *)







(** ** Sessions and dates *)

Section Dated.

Implicit Types (id : EntryId) (st : State).

Lemma dated_dates_present st : dated st → dates_present st.
Proof.
  intros [Hte Hch]. unfold dates_present.
  eapply Forall_impl; [exact Hte|]. simpl. intros te Hd. unfold withChanges.
  destruct (changes st !! te_id te) as [p|] eqn:E; [|done].
  pose proof (Hch _ p E) as Hp. simpl in Hp. simpl.
  destruct (p_date p) as [[m|]|]; simpl; [by eexists|done|done].
Qed.

Lemma dated_renders st : dated st → is_Some (App_render st).
Proof.
  intros Hd. apply dated_dates_present in Hd.
  apply timeEntriesWithChanges_completes in Hd.
  unfold App_render. rewrite Hd. by eexists.
Qed.

Lemma dated_change id updates st :
  dated st → p_date updates ≠ Some None → dated (change id updates st).
Proof.
  intros [Hte Hch] Hu. split; [done|]. unfold change. simpl.
  apply map_Forall_insert_2; [|done]. simpl.
  destruct (p_date updates) as [d|] eqn:Ed; simpl; [congruence|].
  destruct (changes st !! id) as [p|] eqn:E; simpl; [|done].
  apply (Hch id p E).
Qed.

Lemma dated_save id st : dated st → dated (save id st).
Proof.
  intros [Hte Hch]. unfold save.
  destruct (changes st !! id) as [p|] eqn:Ep; [|done].
  destruct (find_entry id (timeEntries st)) as [ex|] eqn:Ef; [|done].
  split; simpl.
  - apply Forall_fmap. eapply Forall_impl; [exact Hte|]. simpl.
    intros te Hd. case_bool_decide; [|done].
    apply find_entry_Some in Ef as [Hin _].
    pose proof (proj1 (Forall_forall _ _) Hte ex Hin) as Hex. simpl in Hex.
    pose proof (Hch id p Ep) as Hp. simpl in Hp.
    unfold merge_entry. simpl.
    destruct (p_date p) as [[m|]|]; simpl; [by eexists|done|done].
  - by apply map_Forall_delete.
Qed.

Lemma dated_handle st (a : Action) :
  dated st → keeps_dates a → dated (handle st a).
Proof.
  intros Hd Ha. destruct a as [id u|id|id| | |id|id|d]; simpl in *; try done.
  - by apply dated_change.
  - destruct Hd as [Hte Hch]. split; [done|]. by apply map_Forall_delete.
  - unfold tick. destruct (activeTimeEntry st) as [a|]; [|done].
    destruct (JS.truthy_string a); [|done]. by apply dated_change.
  - destruct Hd as [Hte Hch]. unfold revert.
    case_bool_decide; (split; [done|]); by apply map_Forall_delete.
  - by apply dated_save.
Qed.

Lemma fire_keeps_dates st (view : AppElement) (ev : UIEvent) (a : Action) :
  App_render st = Some view → fire view ev = Some a →
  clears_entry_date ev = false → keeps_dates a.
Proof.
  intros Hr Hf Hev. pose proof (fire_cases st view ev a Hr Hf) as Hc.
  destruct ev as [i button|i value|i d|d| |]; simpl in *.
  - destruct Hc as (visible & te & _ & _ & _ & Hb).
    by destruct Hb as [[_ ->] | [[_ ->] | [[_ ->] | [_ ->]]]].
  - by destruct Hc as (visible & te & _ & _ & ->).
  - destruct Hc as (visible & te & _ & _ & ->). simpl. by destruct d.
  - by subst a.
  - done.
  - by subst a.
Qed.

Lemma ui_step_dated st (ev : UIEvent) :
  dated st → clears_entry_date ev = false →
  ∃ st', ui_step st ev = Some st' ∧ dated st'.
Proof.
  intros Hd Hev. unfold ui_step.
  destruct (dated_renders st Hd) as [view Hr]. rewrite Hr.
  destruct (fire view ev) as [a|] eqn:Hf; eexists; (split; [done|]); [|done].
  apply dated_handle; [done|]. by eapply fire_keeps_dates.
Qed.

End Dated.

(** ** The timer at the limit of exact arithmetic *)





(** X5.  When every canonical entry has a date and no pending record
    clears one, a session in which the user never clears the date picker
    of a card runs to its end: every render on the way succeeds, and so
    does the render of the final state. *)
Theorem session_renders_unless_entry_date_cleared (st0 : State)
    (events : list UIEvent) :
  dated st0 →
  Forall (λ ev, clears_entry_date ev = false) events →
  ∃ st, ui_run events st0 = Some st ∧ dated st ∧ is_Some (App_render st).
Proof.
  revert st0. induction events as [|ev events IH]; intros st0 Hd Hall; simpl.
  - exists st0. split_and!; [done | done | by apply dated_renders].
  - apply Forall_cons in Hall as [Hev Hall].
    destruct (ui_step_dated st0 ev Hd Hev) as (st1 & -> & Hd1).
    by apply IH.
Qed.

(** A session that moves entry 2 to the next day and follows it there. *)
Lemma session_renders_unless_entry_date_cleared_witness :
  ∃ st,
    ui_run [Click 1 "Start"; Interval; PickDate 1 (Some feb_2);
            TypeNotes 0 "GST: moved"; SelectDate (Some feb_2);
            Click 0 "Save"; Interval] fresh = Some st
    ∧ is_Some (App_render st).
Proof.
  destruct (session_renders_unless_entry_date_cleared fresh
    [Click 1 "Start"; Interval; PickDate 1 (Some feb_2);
     TypeNotes 0 "GST: moved"; SelectDate (Some feb_2);
     Click 0 "Save"; Interval]) as (st & Hrun & _ & Hrender).
  - apply (bool_decide_unpack _). by vm_compute.
  - repeat constructor.
  - exact (ex_intro _ st (conj Hrun Hrender)).
Defined.

Lemma ui_step_clearing_entry_date (st : State) (view : AppElement)
    (i : nat) :
  well_formed st →
  App_render st = Some view →
  is_Some (cards view !! i) →
  ∃ st', ui_step st (PickDate i None) = Some st'
         ∧ App_render st' = None
         ∧ ∀ events, events ≠ [] → ui_run events st' = None.
Proof.
  intros Hwf Hr [el Hel].
  destruct (App_render_cards st view Hr) as (visible & Hv & Hc & _).
  rewrite Hc, list_lookup_fmap in Hel.
  destruct (visible !! i) as [te|] eqn:Hi; [|done].
  assert (Hf : fire view (PickDate i None)
               = Some (AChange (te_id te) (date_update None))).
  { simpl. rewrite Hc, list_lookup_fmap, Hi. done. }
  exists (change (te_id te) (date_update None) st).
  assert (Hth : App_render (change (te_id te) (date_update None) st) = None).
  { pose proof (visible_entry_id st visible i te Hwf Hv Hi) as Hin.
    apply list_elem_of_fmap in Hin as (te0 & Hid & Hin).
    unfold App_render. rewrite Hid.
    by rewrite (clearing_entry_date_throws st te0 Hin). }
  split_and!.
  - unfold ui_step. by rewrite Hr, Hf.
  - done.
  - intros [|ev events] Hne; [done|]. simpl. unfold ui_step. by rewrite Hth.
Qed.

(** X6.  In a well-formed state, clearing the date picker of any card on
    the page records the change and leaves a state whose render throws;
    the container is unmounted and no later event is handled. *)
Theorem clearing_entry_date_unmounts (st : State) (view : AppElement)
    (i : nat) :
  well_formed st →
  App_render st = Some view →
  is_Some (cards view !! i) →
  ∃ st', ui_step st (PickDate i None) = Some st'
         ∧ App_render st' = None
         ∧ ∀ events, events ≠ [] → ui_run events st' = None.
Proof. apply ui_step_clearing_entry_date. Qed.

(** Clearing the date of card 2 while the timer runs on entry 1. *)
Lemma clearing_entry_date_unmounts_witness :
  ∃ st', ui_step (tick (start "1" fresh)) (PickDate 1 None) = Some st'
         ∧ App_render st' = None.
Proof.
  assert (Hr : ∃ view, App_render (tick (start "1" fresh)) = Some view
                       ∧ is_Some (cards view !! 1)).
  { eexists. split; [reflexivity|]. vm_compute. by eexists. }
  destruct Hr as (view & Hr & Hcard).
  destruct (clearing_entry_date_unmounts (tick (start "1" fresh)) view 1)
    as (st' & Hstep & Hren & _).
  - apply (bool_decide_unpack _). by vm_compute.
  - exact Hr.
  - exact Hcard.
  - exact (ex_intro _ st' (conj Hstep Hren)).
Defined.

Lemma visible_needs_selection (st : State) (visible : list TimeEntry)
    (i : nat) (te : TimeEntry) :
  timeEntriesWithChanges st = Some visible → visible !! i = Some te →
  currentDate st ≠ None.
Proof.
  unfold timeEntriesWithChanges. intros Hv Hi Hnone. rewrite Hnone in Hv.
  apply filter_throwing_Some in Hv as [-> _].
  apply list_elem_of_lookup_2, list_elem_of_In, filter_In in Hi as [_ Hq].
  unfold onSelectedDay in Hq. by destruct (te_date te).
Qed.

Lemma ui_run_dated_or_selected (events : list UIEvent) (st st' : State) :
  well_formed st → dated st → ui_run events st = Some st' →
  dated st' ∨ currentDate st' ≠ None.
Proof.
  revert st. induction events as [|ev events IH]; simpl; intros st Hwf Hd H.
  - left. by simplify_eq.
  - destruct (ui_step st ev) as [st1|] eqn:E; [|done].
    destruct (ui_step_well_formed st st1 ev Hwf E) as [Hwf1 _].
    destruct (clears_entry_date ev) eqn:Hev.
    + destruct ev as [| |i [d|]| | |]; try done.
      destruct (dated_renders st Hd) as [view Hr].
      destruct (cards view !! i) as [el|] eqn:Hel.
      * destruct (ui_step_clearing_entry_date st view i Hwf Hr)
          as (st2 & Hstep & Hthrow & Hdead); [by eexists|].
        assert (st2 = st1) as -> by congruence.
        destruct events as [|ev' events]; [|by rewrite Hdead in H].
        simpl in H. simplify_eq. right.
        destruct (cards_lookup st view i el Hr Hel)
          as (vis & te & Hv & Hi & ->).
        unfold ui_step in E. rewrite Hr in E. simpl in E.
        rewrite Hel in E. simpl in E. injection E as <-.
        change (currentDate st ≠ None).
        by eapply visible_needs_selection.
      * unfold ui_step in E. rewrite Hr in E. simpl in E.
        rewrite Hel in E. simpl in E. simplify_eq. by eapply IH.
    + destruct (ui_step_dated st ev Hd Hev) as (st2 & Hstep & Hd2).
      assert (st2 = st1) as -> by congruence. by eapply IH.
Qed.

(** X18.  In a session that starts in a well-formed state whose entries
    all have dates, whenever the selected date is cleared the derived view
    is the empty list: the state in which both the selected date and the
    date of an entry are cleared cannot be reached through the controls of
    the page. *)
Theorem cleared_selection_is_empty_in_sessions (st0 st : State)
    (events : list UIEvent) :
  well_formed st0 →
  dated st0 →
  ui_run events st0 = Some st →
  currentDate st = None →
  timeEntriesWithChanges st = Some [].
Proof.
  intros Hwf Hd Hrun Hnone.
  destruct (ui_run_dated_or_selected events st0 st Hwf Hd Hrun) as [Hd'|Hsel];
    [|done].
  rewrite timeEntriesWithChanges_completes by by apply dated_dates_present.
  by rewrite Hnone, same_day_of_year_no_selection.
Qed.

(** The selected date is cleared in the middle of a session; the clicks
    that follow find no card. *)
Lemma cleared_selection_is_empty_in_sessions_witness :
  let events :=
    [Click 0 "Start"; Interval; SelectDate None; PickDate 0 None;
     Click 0 "Save"; Interval] in
  ∃ st, ui_run events fresh = Some st
        ∧ timeEntriesWithChanges st = Some []
        ∧ changes st = {[ "1" := time_update 2 ]}.
Proof.
  intros events. eexists. split; [by vm_compute|].
  split; [|by vm_compute].
  apply (cleared_selection_is_empty_in_sessions fresh _ events).
  - apply (bool_decide_unpack _). by vm_compute.
  - apply (bool_decide_unpack _). by vm_compute.
  - by vm_compute.
  - by vm_compute.
Defined.





(** ** Presentation *)

(** X7.  Every card of a render stands for the visible entry at the same
    position: it shows that entry's time, notes and date, the button Pause
    when the entry is the active timer and Start otherwise, the buttons
    Revert and Save exactly when the entry's id is a key of the
    change-set, and a title that ends with a star in that case. *)
Theorem cards_reflect_state (st : State) (view : AppElement) (i : nat)
    (el : Card.Element) :
  App_render st = Some view →
  cards view !! i = Some el →
  ∃ visible te,
    timeEntriesWithChanges st = Some visible
    ∧ length (cards view) = length visible
    ∧ visible !! i = Some te
    ∧ Card.elapsed el = te_time te
    ∧ Card.notes_value el = te_notes te
    ∧ Card.date_value el = te_date te
    ∧ buttons el =
        (if bool_decide (activeTimeEntry st = Some (te_id te))
         then ["Pause"] else ["Start"])
        ++ (if bool_decide (is_Some (changes st !! te_id te))
            then ["Revert"; "Save"] else [])
    ∧ Card.title el =
        "Entry Id: " +:+ te_id te
        +:+ (if bool_decide (is_Some (changes st !! te_id te))
             then "*" else "").
Proof.
  intros Hr Hel.
  destruct (cards_lookup st view i el Hr Hel) as (visible & te & Hv & Hi & ->).
  destruct (App_render_cards st view Hr) as (visible' & Hv' & Hc & _).
  exists visible, te. split_and!; try done.
  - rewrite Hc, length_fmap. congruence.
  - apply buttons_card_of.
  - unfold card_of, Card.render. simpl. by rewrite isDirty_card.
Qed.

(** The first card after one tick on entry 1. *)
Lemma cards_reflect_state_witness :
  ∃ view el,
    App_render (tick (start "1" fresh)) = Some view
    ∧ cards view !! 0 = Some el
    ∧ Card.elapsed el = 1%Z
    ∧ buttons el = ["Pause"; "Revert"; "Save"]
    ∧ Card.title el = "Entry Id: 1*".
Proof.
  assert (Hr : ∃ view el, App_render (tick (start "1" fresh)) = Some view
                          ∧ cards view !! 0 = Some el).
  { eexists _, _. split; reflexivity. }
  destruct Hr as (view & el & Hr & Hel).
  destruct (cards_reflect_state (tick (start "1" fresh)) view 0 el Hr Hel)
    as (visible & te & Hv & _ & Hi & He & _ & _ & Hb & Ht).
  vm_compute in Hv. injection Hv as <-. injection Hi as <-.
  exists view, el. split_and!; [done | done | | |].
  - by rewrite He.
  - rewrite Hb. by vm_compute.
  - rewrite Ht. by vm_compute.
Defined.

Lemma Start_shown (st : State) (te : TimeEntry) :
  "Start" ∈ buttons (card_of st te) ↔ activeTimeEntry st ≠ Some (te_id te).
Proof.
  rewrite buttons_card_of.
  repeat case_bool_decide; simpl; split; intros Hshown; try done;
    try (by apply (bool_decide_unpack _));
    by apply (bool_decide_pack _) in Hshown.
Qed.

(** X8.  In a well-formed state at most one card is timing: when a card
    of a render shows Pause, every other card of that render shows Start
    and not Pause. *)
Theorem only_the_timing_card_shows_pause (st : State) (view : AppElement)
    (i j : nat) (a b : Card.Element) :
  well_formed st →
  App_render st = Some view →
  cards view !! i = Some a →
  "Pause" ∈ buttons a →
  cards view !! j = Some b →
  j ≠ i →
  "Start" ∈ buttons b ∧ "Pause" ∉ buttons b.
Proof.
  intros Hwf Hr Ha Hpa Hb Hne.
  destruct (cards_lookup st view i a Hr Ha) as (visible & tea & Hv & Hi & ->).
  destruct (cards_lookup st view j b Hr Hb) as (visible' & teb & Hv' & Hj & ->).
  assert (visible' = visible) as -> by congruence.
  apply Pause_shown in Hpa.
  assert (Hnd : NoDup (te_id <$> visible)).
  { apply (sublist_NoDup _ (entry_ids st)); [by destruct Hwf|].
    by apply visible_ids. }
  assert (Hidle : activeTimeEntry st ≠ Some (te_id teb)).
  { intros Hpb. apply Hne. symmetry.
    eapply (NoDup_lookup _ i j (te_id tea) Hnd).
    - by rewrite list_lookup_fmap, Hi.
    - rewrite list_lookup_fmap, Hj. simpl. congruence. }
  split; [by apply Start_shown|]. by rewrite Pause_shown.
Qed.

(** After starting entry 1 and then entry 2, the second card shows Pause
    and the first one Start. *)
Lemma only_the_timing_card_shows_pause_witness :
  ∃ view first,
    App_render (start "2" (start "1" fresh)) = Some view
    ∧ cards view !! 0 = Some first
    ∧ "Start" ∈ buttons first ∧ "Pause" ∉ buttons first.
Proof.
  assert (Hr : ∃ view first second,
             App_render (start "2" (start "1" fresh)) = Some view
             ∧ cards view !! 0 = Some first
             ∧ cards view !! 1 = Some second
             ∧ "Pause" ∈ buttons second).
  { eexists _, _, _. split_and!; [reflexivity | reflexivity | reflexivity |].
    apply (bool_decide_unpack _). by vm_compute. }
  destruct Hr as (view & first & second & Hr & Hfirst & Hsecond & Hp).
  exists view, first. split; [exact Hr|]. split; [exact Hfirst|].
  refine (only_the_timing_card_shows_pause (start "2" (start "1" fresh)) view
            1 0 second first _ Hr Hsecond Hp Hfirst _).
  - apply (bool_decide_unpack _). by vm_compute.
  - discriminate.
Defined.

(** X9.  In a well-formed state, a card offers Save exactly when saving
    its entry changes the state, and Revert exactly when reverting its
    entry changes the change-set. *)
Theorem save_and_revert_offered_when_effective (st : State)
    (visible : list TimeEntry) (i : nat) (te : TimeEntry) :
  well_formed st →
  timeEntriesWithChanges st = Some visible →
  visible !! i = Some te →
  ("Save" ∈ buttons (card_of st te) ↔ save (te_id te) st ≠ st)
  ∧ ("Revert" ∈ buttons (card_of st te)
     ↔ changes (revert (te_id te) st) ≠ changes st).
Proof.
  intros Hwf Hv Hi.
  pose proof (visible_entry_id st visible i te Hwf Hv Hi) as Hin.
  apply find_entry_is_Some in Hin.
  assert (Hrev : changes (revert (te_id te) st)
                 = delete (te_id te) (changes st)).
  { unfold revert. by case_bool_decide. }
  assert (Hsaved : changes (save (te_id te) st) !! te_id te = None).
  { destruct Hin as [ex Hex]. unfold save. rewrite Hex.
    destruct (changes st !! te_id te) eqn:E; [|done].
    simpl. apply lookup_delete_eq. }
  split.
  - rewrite Save_shown. split.
    + intros [p Hp] Heq. rewrite Heq in Hsaved. congruence.
    + intros Hne. destruct (changes st !! te_id te) eqn:E; [by eexists|].
      destruct Hne. unfold save. by rewrite E.
  - rewrite Revert_shown, Hrev. split.
    + intros [p Hp] Heq.
      pose proof (lookup_delete_eq (changes st) (te_id te)) as Hnone.
      rewrite Heq in Hnone. congruence.
    + intros Hne. destruct (changes st !! te_id te) eqn:E; [by eexists|].
      destruct Hne. by apply delete_id.
Qed.

(** After one tick on entry 1, its card offers Save and saving commits the
    second; the card of entry 2 offers neither button. *)
Lemma save_and_revert_offered_when_effective_witness :
  let st := tick (start "1" fresh) in
  save "1" st ≠ st
  ∧ ¬ "Revert" ∈ buttons (card_of st (mkTimeEntry "2" "GST: another item" 0
                                        (Some feb_1))).
Proof.
  intros st.
  pose (visible := [ mkTimeEntry "1" "GST: hello world" 1 (Some feb_1);
                     mkTimeEntry "2" "GST: another item" 0 (Some feb_1) ]).
  assert (Hwf : well_formed st) by (apply (bool_decide_unpack _); by vm_compute).
  assert (Hv : timeEntriesWithChanges st = Some visible) by (by vm_compute).
  split.
  - apply (proj1 (save_and_revert_offered_when_effective st visible 0 _
                    Hwf Hv eq_refl)).
    apply (bool_decide_unpack _). by vm_compute.
  - intros Hshown.
    apply (proj2 (save_and_revert_offered_when_effective st visible 1 _
                    Hwf Hv eq_refl)) in Hshown.
    apply Hshown. by vm_compute.
Defined.

(** ** How the handlers compose *)

Lemma timeEntries_handle (st : State) (a : Action) :
  is_save a = false → timeEntries (handle st a) = timeEntries st.
Proof.
  destruct a; simpl; try done.
  - intros _. unfold tick. by repeat case_match.
  - intros _. unfold revert. by case_bool_decide.
Qed.

Lemma length_timeEntries_handle (st : State) (a : Action) :
  length (timeEntries (handle st a)) = length (timeEntries st).
Proof.
  destruct (is_save a) eqn:E; [|by rewrite timeEntries_handle].
  destruct a; try done. simpl. unfold save.
  repeat case_match; simpl; by rewrite ?length_map.
Qed.

Lemma no_id_override_handle (st : State) (a : Action) :
  no_id_override (changes st) → keeps_id a = true →
  no_id_override (changes (handle st a)).
Proof.
  intros Hno Hk. destruct a as [id updates|id|id| | |id|id|d]; simpl in *;
    try done.
  - unfold change. simpl. apply map_Forall_insert_2; [|done]. simpl.
    destruct (p_id updates); [done|]. unfold JS.spread.
    destruct (changes st !! id) as [p|] eqn:E; [|done].
    simpl. exact (Hno id p E).
  - by apply map_Forall_delete.
  - unfold tick. destruct (activeTimeEntry st) as [active|]; [|done].
    destruct (JS.truthy_string active); [|done].
    unfold change. simpl. apply map_Forall_insert_2; [|done]. simpl.
    unfold JS.spread. simpl.
    destruct (changes st !! active) as [p|] eqn:E; [|done].
    simpl. exact (Hno active p E).
  - unfold revert. case_bool_decide; by apply map_Forall_delete.
  - unfold save. destruct (changes st !! id); [|done].
    destruct (find_entry id (timeEntries st)); [|done].
    by apply map_Forall_delete.
Qed.

Lemma entry_ids_handle (st : State) (a : Action) :
  no_id_override (changes st) →
  te_id <$> timeEntries (handle st a) = te_id <$> timeEntries st.
Proof.
  intros Hno. destruct (is_save a) eqn:Es; [|by rewrite timeEntries_handle].
  destruct a as [| | | | | |id|]; try done. simpl. unfold save.
  destruct (changes st !! id) as [p|] eqn:Ep; [|done].
  destruct (find_entry id (timeEntries st)) as [ex|] eqn:Ef; [|done].
  simpl. apply find_entry_Some in Ef as [_ Hex].
  pose proof (Hno id p Ep) as Hp. simpl in Hp.
  change (map ?f ?l) with (f <$> l). rewrite <- list_fmap_compose.
  apply list_fmap_ext. intros i te _. simpl.
  case_bool_decide as Hid; [|done]. simpl. rewrite Hp. simpl. congruence.
Qed.

(** X10.  Whatever the sequence of events, the canonical list keeps its
    length; a sequence without a save leaves the canonical list exactly
    as it was; and when no pending record holds an id and no event of the
    sequence records one, the ids of the canonical entries and their
    order stay as they were, saves included. *)
Theorem canonical_entries_change_only_on_save (st : State)
    (trace : list Action) :
  length (timeEntries (run trace st)) = length (timeEntries st)
  ∧ (Forall (λ a, is_save a = false) trace →
     timeEntries (run trace st) = timeEntries st)
  ∧ (no_id_override (changes st) →
     Forall (λ a, keeps_id a = true) trace →
     te_id <$> timeEntries (run trace st) = te_id <$> timeEntries st).
Proof.
  revert st. induction trace as [|a trace IH]; intros st; [done|].
  simpl. destruct (IH (handle st a)) as (Hlen & Hsame & Hids). split_and!.
  - by rewrite Hlen, length_timeEntries_handle.
  - intros Hall. apply Forall_cons in Hall as [Ha Hall].
    by rewrite Hsame, timeEntries_handle.
  - intros Hno Hall. apply Forall_cons in Hall as [Ha Hall].
    rewrite Hids; [by apply entry_ids_handle| |done].
    by apply no_id_override_handle.
Qed.

(** Timing, editing and reverting leave the seeded list untouched;
    saving the edited notes of entry 2 afterwards keeps the ids. *)
Lemma canonical_entries_change_only_on_save_witness :
  let quiet :=
    [ AStart "1"; ATick; AChange "2" (notes_update "GST: x");
      ARevert "2"; APause; ASetCurrentDate None ] in
  let saving :=
    [ AStart "1"; ATick; AChange "2" (notes_update "GST: x");
      ASave "2"; ASave "1" ] in
  timeEntries (run quiet fresh) = timeEntries fresh
  ∧ te_id <$> timeEntries (run saving fresh) = ["1"; "2"].
Proof.
  intros quiet saving. split.
  - apply (proj1 (proj2 (canonical_entries_change_only_on_save fresh quiet))).
    unfold quiet. repeat constructor.
  - apply (proj2 (proj2 (canonical_entries_change_only_on_save fresh saving))).
    + apply (bool_decide_unpack _). by vm_compute.
    + unfold saving. repeat constructor.
Defined.

(** A recorded id is committed by a save like any other field: the
    canonical entry 1 becomes an entry 9. *)
Example save_commits_recorded_id :
  te_id <$> timeEntries
    (run [AChange "1" (mkPartial (Some "9") None None None); ASave "1"] fresh)
  = ["9"; "2"].
Proof. reflexivity. Qed.

Lemma edits_frame (id : EntryId) (updates : list PartialTimeEntry)
    (st : State) :
  timeEntries (run (edits id updates) st) = timeEntries st
  ∧ currentDate (run (edits id updates) st) = currentDate st
  ∧ activeTimeEntry (run (edits id updates) st) = activeTimeEntry st
  ∧ delete id (changes (run (edits id updates) st)) = delete id (changes st).
Proof.
  revert st. induction updates as [|u updates IH]; intros st; [done|].
  simpl. destruct (IH (change id u st)) as (H1 & H2 & H3 & H4).
  unfold edits, run in *. rewrite H1, H2, H3, H4. split_and!; try done.
  unfold change. simpl. apply delete_insert_eq.
Qed.

(** X11.  Revert undoes every edit: after any sequence of changes, none
    of which clears the date, recorded for an entry that was not dirty and
    is not the active timer, reverting that entry gives back exactly the
    state before the first change. *)
Theorem revert_undoes_edits (id : EntryId) (updates : list PartialTimeEntry)
    (st : State) :
  changes st !! id = None →
  activeTimeEntry st ≠ Some id →
  Forall (λ u, p_date u ≠ Some None) updates →
  revert id (run (edits id updates) st) = st.
Proof.
  intros Hclean Hact _.
  destruct (edits_frame id updates st) as (H1 & H2 & H3 & H4).
  unfold revert. rewrite H3, bool_decide_eq_false_2 by done.
  unfold clearChanges, setChanges. rewrite H1, H2, H3, H4.
  rewrite delete_id by done. apply State_eta.
Qed.

(** Notes and the date edited on card 2, then reverted, while the timer
    runs on entry 1; the same as a session on the page, where the new
    date keeps the card on the selected day. *)
Lemma revert_undoes_edits_witness :
  let same_day := mkMoment 2020 32 in
  revert "2"
    (run (edits "2" [notes_update "GST: a"; date_update (Some same_day);
                     notes_update "GST: b"])
         (tick (start "1" fresh)))
  = tick (start "1" fresh)
  ∧ ui_run [ Click 0 "Start"; Interval; TypeNotes 1 "GST: a";
             PickDate 1 (Some same_day); TypeNotes 1 "GST: b";
             Click 1 "Revert" ] fresh
    = Some (tick (start "1" fresh)).
Proof.
  intros same_day. split; [|by vm_compute].
  apply revert_undoes_edits; [by vm_compute | by vm_compute |].
  repeat constructor; discriminate.
Defined.

(** X12.  Saving twice is saving once. *)
Theorem save_twice (id : EntryId) (st : State) :
  save id (save id st) = save id st.
Proof.
  destruct (find_entry id (timeEntries st)) as [ex|] eqn:Ef.
  - assert (Hnone : changes (save id st) !! id = None).
    { unfold save. rewrite Ef. destruct (changes st !! id) eqn:E; [|done].
      simpl. apply lookup_delete_eq. }
    unfold save at 1. by rewrite Hnone.
  - assert (Hno : save id st = st).
    { unfold save. rewrite Ef. by destruct (changes st !! id). }
    by rewrite !Hno.
Qed.

Lemma NoDup_fmap_elem_eq {A B : Type} (f : A → B) (l : list A) (x y : A) :
  NoDup (f <$> l) → x ∈ l → y ∈ l → f x = f y → x = y.
Proof.
  induction l as [|z l IH]; simpl; intros Hnd Hx Hy Hf.
  - by apply elem_of_nil in Hx.
  - apply NoDup_cons in Hnd as [Hz Hnd].
    apply elem_of_cons in Hx as [-> | Hx], Hy as [-> | Hy]; try done.
    + destruct Hz. rewrite Hf. by apply list_elem_of_fmap_2.
    + destruct Hz. rewrite <- Hf. by apply list_elem_of_fmap_2.
    + by apply IH.
Qed.

(** X13.  When the canonical ids are unique and the pending record of
    [id] does not override the id, saving [id] does not change the derived
    view: the user sees after the save what was shown before it (and a
    render that throws still throws). *)
Theorem save_keeps_derived_view (id : EntryId) (st : State) :
  NoDup (te_id <$> timeEntries st) →
  (∀ p, changes st !! id = Some p → p_id p = None) →
  timeEntriesWithChanges (save id st) = timeEntriesWithChanges st.
Proof.
  intros Hnd Hpid. unfold save.
  destruct (changes st !! id) as [p|] eqn:Ep; [|done].
  destruct (find_entry id (timeEntries st)) as [ex|] eqn:Ef; [|done].
  unfold timeEntriesWithChanges. simpl. f_equal.
  rewrite <- list_fmap_compose. apply list_fmap_ext. intros i te Hi. simpl.
  apply find_entry_Some in Ef as [Hex Hexid].
  pose proof (Hpid p eq_refl) as Hp.
  case_bool_decide as Hid.
  - assert (te = ex) as ->.
    { eapply (NoDup_fmap_elem_eq te_id); [done| |done|congruence].
      by eapply list_elem_of_lookup_2. }
    unfold withChanges at 1.
    assert (Hmid : te_id (merge_entry ex p) = id).
    { unfold merge_entry. simpl. by rewrite Hp. }
    rewrite Hmid, lookup_delete_eq.
    unfold withChanges. by rewrite Hexid, Ep.
  - unfold withChanges. by rewrite lookup_delete_ne.
Qed.

(** Two seconds and new notes pending on entry 1, then saved. *)
Lemma save_keeps_derived_view_witness :
  timeEntriesWithChanges
    (save "1" (run [AStart "1"; ATick; ATick;
                    AChange "1" (notes_update "GST: done")] fresh))
  = Some [ mkTimeEntry "1" "GST: done" 2 (Some feb_1);
           mkTimeEntry "2" "GST: another item" 0 (Some feb_1) ].
Proof.
  rewrite save_keeps_derived_view; [by vm_compute | |].
  - apply (bool_decide_unpack _). by vm_compute.
  - intros p. vm_compute. by intros [= <-].
Defined.

(** X14.  Changes recorded for two different entries commute. *)
Theorem changes_of_different_entries_commute (a b : EntryId)
    (u v : PartialTimeEntry) (st : State) :
  a ≠ b →
  change a u (change b v st) = change b v (change a u st).
Proof.
  intros Hne. unfold change, setChanges. simpl.
  rewrite !lookup_insert_ne by done. f_equal. by apply insert_insert_ne.
Qed.

(** Notes on card 1 and a new date on card 2, in either order. *)
Lemma changes_of_different_entries_commute_witness :
  change "1" (notes_update "GST: x")
    (change "2" (date_update (Some feb_2)) fresh)
  = change "2" (date_update (Some feb_2))
      (change "1" (notes_update "GST: x") fresh).
Proof. by apply changes_of_different_entries_commute. Defined.

(** ** The timer over several ticks *)

Lemma effective_time_tick (st : State) (id : EntryId) :
  well_formed st → activeTimeEntry st = Some id →
  (effective_time id st < JS.two53)%Z →
  effective_time id (tick st) = (effective_time id st + 1)%Z.
Proof.
  intros Hwf Hact Hsafe.
  rewrite (tick_active_well_formed st id Hwf Hact Hsafe).
  unfold effective_time at 1. by rewrite change_stored.
Qed.

Lemma ticks_running (n : nat) (st : State) (id : EntryId) :
  well_formed st → activeTimeEntry st = Some id →
  (effective_time id st + Z.of_nat n ≤ JS.two53)%Z →
  effective_time id (run (ticks n) st)
  = (effective_time id st + Z.of_nat n)%Z
  ∧ (∀ other, other ≠ id →
       changes (run (ticks n) st) !! other = changes st !! other)
  ∧ timeEntries (run (ticks n) st) = timeEntries st
  ∧ activeTimeEntry (run (ticks n) st) = Some id
  ∧ well_formed (run (ticks n) st).
Proof.
  revert st. induction n as [|n IH]; intros st Hwf Hact Hsafe.
  - simpl. split_and!; try done. lia.
  - assert (Hlt : (effective_time id st < JS.two53)%Z) by lia.
    pose proof (tick_active_well_formed st id Hwf Hact Hlt) as Htick.
    pose proof (effective_time_tick st id Hwf Hact Hlt) as Heff.
    assert (Hact' : activeTimeEntry (tick st) = Some id) by by rewrite Htick.
    destruct (IH (tick st) (well_formed_tick st Hwf) Hact')
      as (He & Ho & Hte & Ha & Hw); [lia|].
    change (run (ticks (S n)) st) with (run (ticks n) (tick st)).
    split_and!; try done.
    + rewrite He, Heff. lia.
    + intros other Hne. rewrite Ho by done.
      rewrite Htick. by apply change_other.
    + rewrite Hte. by rewrite Htick.
Qed.

Lemma ticks_idle (n : nat) (st : State) :
  activeTimeEntry st = None → run (ticks n) st = st.
Proof.
  intros Hidle. induction n as [|n IH]; [done|]. simpl.
  unfold tick at 1. rewrite Hidle. exact IH.
Qed.

(** X15.  Starting the timer on a canonical entry of a well-formed state
    and letting the interval elapse [n] times adds exactly [n] seconds to
    the effective time of that entry, as long as the total stays within
    [2^53], and touches nothing else: the pending records of the other
    entries (also of a previously timed one) and the canonical list stay
    as they were.  Pausing keeps the seconds accumulated so far, and no
    later tick has any effect. *)
Theorem timer_accumulates_seconds (st : State) (id : EntryId) (n m : nat) :
  well_formed st →
  id ∈ te_id <$> timeEntries st →
  (effective_time id st + Z.of_nat n ≤ JS.two53)%Z →
  effective_time id (run (ticks n) (start id st))
  = (effective_time id st + Z.of_nat n)%Z
  ∧ (∀ other, other ≠ id →
       changes (run (ticks n) (start id st)) !! other = changes st !! other)
  ∧ timeEntries (run (ticks n) (start id st)) = timeEntries st
  ∧ activeTimeEntry (run (ticks n) (start id st)) = Some id
  ∧ run (ticks m) (pause (run (ticks n) (start id st)))
    = pause (run (ticks n) (start id st))
  ∧ changes (pause (run (ticks n) (start id st)))
    = changes (run (ticks n) (start id st)).
Proof.
  intros Hwf Hid Hsafe.
  assert (Hwf' : well_formed (start id st)).
  { destruct Hwf as (Hnd & Hte & Hch & _). by split_and!. }
  destruct (ticks_running n (start id st) id Hwf' eq_refl Hsafe)
    as (He & Ho & Hte & Ha & _).
  split_and!; try done. by apply ticks_idle.
Qed.

(** One second on entry 1, then the timer is switched to entry 2 for five
    seconds: entry 2 has five pending seconds and entry 1 keeps its
    one. *)
Lemma timer_accumulates_seconds_witness :
  effective_time "2" (run (ticks 5) (start "2" (tick (start "1" fresh))))
  = 5%Z
  ∧ changes (run (ticks 5) (start "2" (tick (start "1" fresh)))) !! "1"
    = Some (time_update 1).
Proof.
  destruct (timer_accumulates_seconds (tick (start "1" fresh)) "2" 5 0)
    as (He & Ho & _).
  - apply (bool_decide_unpack _). by vm_compute.
  - apply (bool_decide_unpack _). by vm_compute.
  - by vm_compute.
  - split; [exact He | by rewrite Ho].
Defined.

(** ** Reading and writing local storage *)

(** X17.  What the persistence callback writes is what the start-up code
    reads: for a change-set that the serialisation round-trips, reading
    after the write gives the change-set back; the write touches no other
    key of the store, and of two writes the later one wins. *)
Theorem persisted_changes_are_read_back
    (JSON_stringify : ChangedEntries → string)
    (JSON_parse : string → option ChangedEntries)
    (c : ChangedEntries) (localStorage : gmap string string) :
  JSON_parse (JSON_stringify c) = Some c →
  JSON_stringify c ≠ "" →
  localData JSON_parse (updateLocalStorage JSON_stringify c localStorage) = c
  ∧ (∀ k, k ≠ "changes" →
       updateLocalStorage JSON_stringify c localStorage !! k
       = localStorage !! k)
  ∧ (∀ earlier,
       updateLocalStorage JSON_stringify c
         (updateLocalStorage JSON_stringify earlier localStorage)
       = updateLocalStorage JSON_stringify c localStorage).
Proof.
  intros Hround Hne. split_and!.
  - unfold localData, updateLocalStorage, LOCAL_KEY_CHANGES.
    rewrite lookup_insert_eq. apply truthy_string_nonempty in Hne.
    by rewrite Hne, Hround.
  - intros k Hk. unfold updateLocalStorage. by rewrite lookup_insert_ne.
  - intros earlier. unfold updateLocalStorage. apply insert_insert_eq.
Qed.

(** Three pending seconds of entry 1 written next to another key of the
    store and read back; the codec stands for [JSON.stringify] and
    [JSON.parse] on that one change-set. *)
Lemma persisted_changes_are_read_back_witness :
  let pending : ChangedEntries := {[ "1" := time_update 3 ]} in
  let stringify (c : ChangedEntries) :=
    if bool_decide (c = pending) then "pending" else "other" in
  let parse (raw : string) :=
    if String.eqb raw "pending" then Some pending else None in
  localData parse (updateLocalStorage stringify pending {[ "theme" := "dark" ]})
  = pending.
Proof.
  intros pending stringify parse.
  refine (proj1 (persisted_changes_are_read_back stringify parse pending
                   {[ "theme" := "dark" ]} _ _)); by vm_compute.
Defined.
